(** * useSubscription: the subscription-lifecycle binding

    A shallow embedding of [useSubscription]
    (packages/observable-hooks/src/use-subscription.ts) together with the
    part of its two collaborators that the hook relies on:

    - the React host: [useRef] cells persist across renders, the effect
      registered by [useEffect (..., [args[0]])] runs at commit when its
      dependency changed (after the cleanup of the previous run), a render
      that throws is never committed, and unmounting runs the last cleanup;
    - the RxJS subscriber: a subscription delivers a notification to its
      observer only while it is neither unsubscribed nor stopped, and
      [error] / [complete] stop it before the observer is called.

    Every operation is a computation in a small state-and-log monad over
    the [World] of one hook instance; the log records the externally
    visible effects (subscribe, unsubscribe, callback calls, forceUpdate,
    render-time throws) in program order.

    Caller-supplied callbacks are opaque: calling one is an entry of the
    log.  Each observer calls its callback (or forceUpdate) in tail
    position, so whatever the callback sets off in the host -- a state
    update, hence a render -- is a later action of the trace.

    An observable may push notifications synchronously, inside
    [input$.subscribe], before the effect has written [subscriptionRef];
    a callback called there may read the ref and unsubscribe through it.
    [Commit] is the commit on an observable that pushes nothing before
    [subscribe] returns; [CommitSync window] is the general commit, with
    what happens inside [subscribe] spelled out, and the traces of
    [run_s] mix both. *)

From Stdlib Require Import ZArith String List Lia.
From stdpp Require Import base list.
Import ListNotations.

Local Open Scope Z_scope.

(** ** JavaScript values and truthiness *)

Module JS.

(** The values an observable may push.  [VObj] is any object reference
    (an [Error] instance, say); numbers are the integral ones plus NaN. *)
Inductive val : Type :=
| VUndefined
| VNull
| VBool (b : bool)
| VNum (z : Z)
| VNaN
| VStr (s : string)
| VObj (ref : nat).

(** ToBoolean, as used by [if (errorRef.current)]. *)
Definition truthy (v : val) : bool :=
  match v with
  | VUndefined | VNull | VNaN => false
  | VBool b => b
  | VNum z => negb (z =? 0)
  | VStr s => match s with EmptyString => false | String _ _ => true end
  | VObj _ => true
  end.

(** A ref cell that holds neither [null] nor [undefined]. *)
Definition holds_value (v : val) : Prop := v <> VNull /\ v <> VUndefined.

End JS.
Export JS.

Local Close Scope Z_scope.

(** ** Data of one hook instance *)

(** Observables are compared by reference ([!==], and [Object.is] on the
    dependency array), so an observable is its reference. *)
Abbreviation obs := nat (only parsing).
(** A caller-supplied callback, by reference. *)
Abbreviation cb := nat (only parsing).
(** A subscription, by its position in the store of subscriptions made. *)
Abbreviation sub_id := nat (only parsing).

(** The rest-parameter tuple [args]: [args[0]] is the observable,
    [args[1..3]] the optional [next], [error], [complete] callbacks; a
    [null] / [undefined] placeholder is [None]. *)
Record Args : Type := mkArgs {
  a_input : obs;
  a_next : option cb;
  a_error : option cb;
  a_complete : option cb
}.

Inductive notif : Type :=
| NNext (value : val)
| NError (error : val)
| NComplete.

Inductive status : Type :=
| SubActive          (* delivering *)
| SubStopped         (* terminated by error or complete *)
| SubUnsubscribed.   (* unsubscribe() was called on it *)

(** A subscription made by [input$.subscribe (...)]: the observer closes
    over [input$], so the closure variable is kept with it. *)
Record Sub : Type := mkSub {
  sub_input : obs;
  sub_status : status
}.

(** Externally visible effects, in program order. *)
Inductive event : Type :=
| EvSubscribe (k : sub_id) (input : obs)
| EvUnsubscribe (k : sub_id)
| EvNext (f : cb) (value : val)
| EvError (f : cb) (error : val)
| EvComplete (f : cb)
| EvForceUpdate
| EvThrow (error : val).

(** The three [useRef] cells of the hook, the subscriptions it has made,
    and the host's record of the effect. *)
Record World : Type := mkWorld {
  argsRef : Args;                     (* argsRef.current *)
  subscriptionRef : option sub_id;    (* subscriptionRef.current *)
  errorRef : val;                     (* errorRef.current *)
  subs : list Sub;                    (* every subscription made so far *)
  eff_deps : option obs;              (* [args[0]] of the last effect run *)
  eff_cleanup : option sub_id;        (* the cleanup returned by that run *)
  pending : option obs;               (* deps of a rendered, uncommitted effect *)
  alive : bool                        (* false once unmounted *)
}.

Definition set_argsRef (a : Args) (w : World) : World :=
  mkWorld a (subscriptionRef w) (errorRef w) (subs w)
          (eff_deps w) (eff_cleanup w) (pending w) (alive w).
Definition set_subscriptionRef (r : option sub_id) (w : World) : World :=
  mkWorld (argsRef w) r (errorRef w) (subs w)
          (eff_deps w) (eff_cleanup w) (pending w) (alive w).
Definition set_errorRef (e : val) (w : World) : World :=
  mkWorld (argsRef w) (subscriptionRef w) e (subs w)
          (eff_deps w) (eff_cleanup w) (pending w) (alive w).
Definition set_subs (l : list Sub) (w : World) : World :=
  mkWorld (argsRef w) (subscriptionRef w) (errorRef w) l
          (eff_deps w) (eff_cleanup w) (pending w) (alive w).
Definition set_eff_deps (d : option obs) (w : World) : World :=
  mkWorld (argsRef w) (subscriptionRef w) (errorRef w) (subs w)
          d (eff_cleanup w) (pending w) (alive w).
Definition set_eff_cleanup (c : option sub_id) (w : World) : World :=
  mkWorld (argsRef w) (subscriptionRef w) (errorRef w) (subs w)
          (eff_deps w) c (pending w) (alive w).
Definition set_pending (p : option obs) (w : World) : World :=
  mkWorld (argsRef w) (subscriptionRef w) (errorRef w) (subs w)
          (eff_deps w) (eff_cleanup w) p (alive w).
Definition set_alive (b : bool) (w : World) : World :=
  mkWorld (argsRef w) (subscriptionRef w) (errorRef w) (subs w)
          (eff_deps w) (eff_cleanup w) (pending w) b.

(** The instance as the first render allocates it: [useRef (args)],
    [useRef ()], [useRef ()]. *)
Definition init (args : Args) : World :=
  mkWorld args None VUndefined [] None None None true.

(** ** The state-and-log monad *)

Definition M (A : Type) : Type := World -> A * World * list event.

Definition ret {A} (a : A) : M A := fun w => (a, w, []).
Definition bind {A B} (m : M A) (f : A -> M B) : M B :=
  fun w =>
    let '(a, w1, l1) := m w in
    let '(b, w2, l2) := f a w1 in
    (b, w2, l1 ++ l2).
Definition get : M World := fun w => (w, w, []).
Definition modify (f : World -> World) : M unit := fun w => (tt, f w, []).
Definition log (e : event) : M unit := fun w => (tt, w, [e]).

Declare Scope hook_scope.
Delimit Scope hook_scope with hook.
Notation "x <- m ;; k" := (bind m (fun x => k))
  (at level 100, m at next level, right associativity) : hook_scope.
Notation "m ;; k" := (bind m (fun _ => k))
  (at level 100, right associativity) : hook_scope.
Local Open Scope hook_scope.

Definition value_of {A} (m : M A) (w : World) : A := fst (fst (m w)).
Definition state_of {A} (m : M A) (w : World) : World := snd (fst (m w)).
Definition events_of {A} (m : M A) (w : World) : list event := snd (m w).

(** ** RxJS: subscribe, unsubscribe *)

Definition with_status (st : status) (sb : Sub) : Sub :=
  mkSub (sub_input sb) st.

Definition set_status (k : sub_id) (st : status) : M unit :=
  modify (fun w => set_subs (alter (with_status st) k (subs w)) w).

(** [input$.subscribe (observer)]: a fresh, active subscription. *)
Definition subscribe (input : obs) : M sub_id :=
  w <- get ;;
  let k := length (subs w) in
  modify (set_subs (subs w ++ [mkSub input SubActive])) ;;
  log (EvSubscribe k input) ;;
  ret k.

(** [subscription.unsubscribe ()]: idempotent. *)
Definition unsubscribe (k : sub_id) : M unit :=
  set_status k SubUnsubscribed ;;
  log (EvUnsubscribe k).

(** ** The hook *)

(** Modelled from the spec: [forceUpdate], returned by [useForceUpdate] of
    ./helpers (not among the sources), is the host's mechanism to force a
    re-render without new externally visible state; calling it is recorded
    in the log. *)
Definition forceUpdate : M unit := log EvForceUpdate.

(** The observer handed to [input$.subscribe]; [input] is the closure
    variable [input$] kept for the staleness check. *)
Definition observer_next (input : obs) (value : val) : M unit :=
  w <- get ;;
  if negb (input =? a_input (argsRef w)) then
    ret tt                                   (* stale observable *)
  else
    match a_next (argsRef w) with
    | Some f => log (EvNext f value)
    | None => ret tt
    end.

Definition observer_error (input : obs) (error : val) : M unit :=
  w <- get ;;
  if negb (input =? a_input (argsRef w)) then
    ret tt                                   (* stale observable *)
  else
    match a_error (argsRef w) with
    | Some f =>
        modify (set_errorRef VNull) ;;
        log (EvError f error)
    | None =>
        modify (set_errorRef error) ;;
        forceUpdate
    end.

Definition observer_complete (input : obs) : M unit :=
  w <- get ;;
  if negb (input =? a_input (argsRef w)) then
    ret tt                                   (* stale observable *)
  else
    match a_complete (argsRef w) with
    | Some f => log (EvComplete f)
    | None => ret tt
    end.

Definition observer (input : obs) (n : notif) : M unit :=
  match n with
  | NNext value => observer_next input value
  | NError error => observer_error input error
  | NComplete => observer_complete input
  end.

(** The body of the effect on an observable that pushes nothing before
    [subscribe] returns ([effect_sync] below is the general form); its
    result is the subscription that the returned cleanup will
    unsubscribe. *)
Definition effect : M sub_id :=
  modify (set_errorRef VNull) ;;
  w <- get ;;
  let input := a_input (argsRef w) in
  subscription <- subscribe input ;;
  modify (set_subscriptionRef (Some subscription)) ;;
  ret subscription.

(** The handle the hook returns: the [subscriptionRef] cell itself, one
    shared mutable object, read through [deref] in the current world. *)
Inductive handle : Type := SubscriptionRef.


Inductive render_result : Type :=
| Return (h : handle)
| Throw (error : val).

(** One render-phase call of the hook. *)
Definition useSubscription (args : Args) : M render_result :=
  modify (set_argsRef args) ;;
  modify (set_pending (Some (a_input args))) ;;   (* useEffect (..., [args[0]]) *)
  w <- get ;;
  if truthy (errorRef w) then
    ret (Throw (errorRef w))                 (* let error boundary catch it *)
  else
    ret (Return SubscriptionRef).

(** ** The host: commit, unmount, delivery *)

Definition deps_changed (prev : option obs) (d : obs) : bool :=
  match prev with
  | Some p => negb (p =? d)
  | None => true
  end.

Definition run_cleanup : M unit :=
  w <- get ;;
  match eff_cleanup w with
  | Some k => unsubscribe k ;; modify (set_eff_cleanup None)
  | None => ret tt
  end.

(** Commit of the latest render: the effect runs when [args[0]] differs
    from the one of its last run, after the previous cleanup. *)
Definition commit : M unit :=
  w <- get ;;
  match pending w with
  | None => ret tt
  | Some d =>
      modify (set_pending None) ;;
      if deps_changed (eff_deps w) d then
        run_cleanup ;;
        k <- effect ;;
        modify (set_eff_cleanup (Some k)) ;;
        modify (set_eff_deps (Some d))
      else ret tt
  end.

Definition unmount : M unit :=
  run_cleanup ;;
  modify (set_pending None) ;;
  modify (set_alive false).

(** A notification of subscription [k] reaches its observer only while
    the subscription is active; [error] and [complete] stop it first. *)
Definition deliver (k : sub_id) (n : notif) : M unit :=
  w <- get ;;
  match subs w !! k with
  | Some sb =>
      match sub_status sb with
      | SubActive =>
          match n with
          | NNext _ => observer (sub_input sb) n
          | _ => set_status k SubStopped ;; observer (sub_input sb) n
          end
      | _ => ret tt
      end
  | None => ret tt
  end.

Inductive action : Type :=
| Render (args : Args)
| Commit
| Emit (k : sub_id) (n : notif)
| ManualUnsubscribe        (* the caller: ref.current.unsubscribe () *)
| Unmount.

Definition step (a : action) : M unit :=
  w <- get ;;
  match a with
  | Render args =>
      if alive w then
        r <- useSubscription args ;;
        match r with
        | Throw e => modify (set_pending None) ;; log (EvThrow e)
        | Return _ => ret tt
        end
      else ret tt
  | Commit => if alive w then commit else ret tt
  | Emit k n => deliver k n
  | ManualUnsubscribe =>
      match subscriptionRef w with
      | Some k => unsubscribe k
      | None => ret tt
      end
  | Unmount => if alive w then unmount else ret tt
  end.

Fixpoint run (tr : list action) : M unit :=
  match tr with
  | [] => ret tt
  | a :: tr' => step a ;; run tr'
  end.

Definition reachable (w : World) : Prop :=
  exists args tr, w = state_of (run tr) (init args).

(** ** Observations *)

Definition is_open (sb : Sub) : bool :=
  match sub_status sb with
  | SubUnsubscribed => false
  | _ => true
  end.

(** Subscriptions on which [unsubscribe] has not been called. *)
Definition open_count (w : World) : nat :=
  length (List.filter is_open (subs w)).

(** What a non-stale notification does with the callbacks of [args]. *)
Definition dispatch (args : Args) (n : notif) : list event :=
  match n with
  | NNext v => match a_next args with Some f => [EvNext f v] | None => [] end
  | NError e =>
      match a_error args with Some f => [EvError f e] | None => [EvForceUpdate] end
  | NComplete => match a_complete args with Some f => [EvComplete f] | None => [] end
  end.

(** ** The world after each action, spelled out *)

Definition rendered (args : Args) (w : World) : World :=
  set_pending (if truthy (errorRef w) then None else Some (a_input args))
              (set_argsRef args w).

Definition unsubscribed (k : sub_id) (w : World) : World :=
  set_subs (alter (with_status SubUnsubscribed) k (subs w)) w.

Definition cleaned (w : World) : World :=
  match eff_cleanup w with
  | Some k => set_eff_cleanup None (unsubscribed k w)
  | None => w
  end.

Definition subscribed (d : obs) (w : World) : World :=
  mkWorld (argsRef w) (Some (length (subs w))) VNull
          (subs w ++ [mkSub (a_input (argsRef w)) SubActive])
          (Some d) (Some (length (subs w))) (pending w) (alive w).

Definition committed (w : World) : World :=
  match pending w with
  | None => w
  | Some d =>
      if deps_changed (eff_deps w) d
      then subscribed d (cleaned (set_pending None w))
      else set_pending None w
  end.

(** Delivery either does nothing, or stops the subscription (on a
    terminal notification) and writes at most the error cell. *)
Definition stopped (k : sub_id) (n : notif) (w : World) : World :=
  match n with
  | NNext _ => w
  | _ => set_subs (alter (with_status SubStopped) k (subs w)) w
  end.

Definition observed (args : Args) (n : notif) (w : World) : World :=
  match n with
  | NError e =>
      match a_error args with
      | Some _ => set_errorRef VNull w
      | None => set_errorRef e w
      end
  | _ => w
  end.

Definition delivered (k : sub_id) (n : notif) (w : World) : World :=
  match subs w !! k with
  | Some sb =>
      match sub_status sb with
      | SubActive =>
          if sub_input sb =? a_input (argsRef w)
          then observed (argsRef w) n (stopped k n w)
          else stopped k n w
      | _ => w
      end
  | None => w
  end.

(** ** The invariant of reachable worlds, and predicates on traces *)

Record Inv (w : World) : Prop := mkInv {
  (* only the subscription of the last effect run can be open *)
  inv_open : forall k sb, subs w !! k = Some sb ->
      sub_status sb <> SubUnsubscribed -> eff_cleanup w = Some k;
  (* that subscription is the one in the ref, made on the committed source *)
  inv_cleanup : forall k, eff_cleanup w = Some k ->
      subscriptionRef w = Some k /\
      exists sb, subs w !! k = Some sb /\ eff_deps w = Some (sub_input sb);
  (* an uncommitted render is the latest one *)
  inv_pending : forall d, pending w = Some d -> d = a_input (argsRef w);
  (* a captured error leaves no subscription delivering *)
  inv_error : holds_value (errorRef w) ->
      forall k sb, subs w !! k = Some sb -> sub_status sb <> SubActive;
  (* a captured truthy error leaves nothing to rebind *)
  inv_throw : truthy (errorRef w) = true ->
      forall d, pending w = Some d -> eff_deps w = Some d;
  (* the ref only ever names a subscription that was made *)
  inv_ref : forall k, subscriptionRef w = Some k -> k < length (subs w);
  (* before the first effect run nothing has been made *)
  inv_fresh : eff_deps w = None ->
      subs w = [] /\ subscriptionRef w = None /\ errorRef w = VUndefined
}.

Definition all_unsubscribed (w : World) : Prop :=
  forall k sb, subs w !! k = Some sb -> sub_status sb = SubUnsubscribed.

Definition none_active (w : World) : Prop :=
  forall k sb, subs w !! k = Some sb -> sub_status sb <> SubActive.

Definition sub_evolves (sb sb' : Sub) : Prop :=
  sub_input sb' = sub_input sb /\
  (sub_status sb' = sub_status sb \/ sub_status sb' <> SubActive).

Definition subs_evolve (l l' : list Sub) : Prop :=
  forall k sb, l !! k = Some sb -> exists sb', l' !! k = Some sb' /\ sub_evolves sb sb'.


Definition keeps_source (A : obs) (a : action) : Prop :=
  match a with
  | Render args => a_input args = A
  | _ => True
  end.

(** The callback slot a notification is for, and the call it makes. *)
Definition slot (args : Args) (n : notif) : option cb :=
  match n with
  | NNext _ => a_next args
  | NError _ => a_error args
  | NComplete => a_complete args
  end.

Definition call_event (f : cb) (n : notif) : event :=
  match n with
  | NNext v => EvNext f v
  | NError e => EvError f e
  | NComplete => EvComplete f
  end.

(** ** Sample worlds *)

Definition args_A : Args := mkArgs 1 (Some 7) None None.
Definition args_B : Args := mkArgs 2 (Some 7) None None.

(** A bound, B rendered but not yet committed. *)
Definition world_A_then_B : World :=
  state_of (run [Render args_A; Commit; Render args_B]) (init args_A).

(** A bound with callback 7; the next render passes callback 8. *)
Definition world_A : World :=
  state_of (run [Render args_A; Commit]) (init args_A).

(** A bound, committed, no callbacks at all. *)
Definition args_bare : Args := mkArgs 1 None None None.
Definition world_bare : World :=
  state_of (run [Render args_bare; Commit]) (init args_bare).


(** A bound with no callbacks, the error object 1 captured. *)
Definition world_captured : World :=
  state_of (step (Emit 0 (NError (VObj 1)))) world_bare.

(** ** Observables that push synchronously *)

(** What can happen inside [input$.subscribe (...)], between the
    registration of the observer and the return of the subscription: the
    observable pushes a notification, or a callback that was just called
    runs [ref.current.unsubscribe ()] on the handle it holds. *)
Inductive sync_step : Type :=
| SyncPush (n : notif)
| SyncUnsubscribe.

Definition sync_action (k : sub_id) (s : sync_step) : action :=
  match s with
  | SyncPush n => Emit k n
  | SyncUnsubscribe => ManualUnsubscribe
  end.

(** [input$.subscribe (observer)] on an observable that goes through
    [window] before it returns the subscription. *)
Definition subscribe_sync (input : obs) (window : list sync_step) : M sub_id :=
  k <- subscribe input ;;
  run (map (sync_action k) window) ;;
  ret k.

(** The body of the effect, in general: [subscriptionRef] is written only
    after [subscribe] has returned. *)
Definition effect_sync (window : list sync_step) : M sub_id :=
  modify (set_errorRef VNull) ;;
  w <- get ;;
  let input := a_input (argsRef w) in
  subscription <- subscribe_sync input window ;;
  modify (set_subscriptionRef (Some subscription)) ;;
  ret subscription.

Definition commit_sync (window : list sync_step) : M unit :=
  w <- get ;;
  match pending w with
  | None => ret tt
  | Some d =>
      modify (set_pending None) ;;
      if deps_changed (eff_deps w) d then
        run_cleanup ;;
        k <- effect_sync window ;;
        modify (set_eff_cleanup (Some k)) ;;
        modify (set_eff_deps (Some d))
      else ret tt
  end.

Inductive saction : Type :=
| Act (a : action)
| CommitSync (window : list sync_step).

Definition step_s (a : saction) : M unit :=
  match a with
  | Act a => step a
  | CommitSync window =>
      w <- get ;;
      if alive w then commit_sync window else ret tt
  end.

Fixpoint run_s (tr : list saction) : M unit :=
  match tr with
  | [] => ret tt
  | a :: tr' => step_s a ;; run_s tr'
  end.

Definition reachable_s (w : World) : Prop :=
  exists args tr, w = state_of (run_s tr) (init args).

(** The world in which the observer has just been registered: the error
    cell reset, the subscription made, the ref not yet written. *)
Definition opened (w : World) : World :=
  set_subs (subs w ++ [mkSub (a_input (argsRef w)) SubActive])
           (set_errorRef VNull w).

(** The world inside [subscribe] after the steps [window]. *)
Definition in_window (k : sub_id) (window : list sync_step) (w : World) : World :=
  state_of (run (map (sync_action k) window)) (opened w).

(** The end of the effect and of the commit: ref, cleanup, dependency. *)
Definition finished (d : obs) (k : sub_id) (w : World) : World :=
  set_eff_deps (Some d) (set_eff_cleanup (Some k) (set_subscriptionRef (Some k) w)).

Definition committed_sync (window : list sync_step) (w : World) : World :=
  match pending w with
  | None => w
  | Some d =>
      if deps_changed (eff_deps w) d
      then finished d (length (subs w))
             (in_window (length (subs w)) window (cleaned (set_pending None w)))
      else set_pending None w
  end.

(** What holds inside [subscribe] of the [k]-th subscription, made on
    source [A]: it is the last one made, every older one is unsubscribed,
    the ref still names an older one (or nothing), and a value in the
    error cell means the new subscription has stopped. *)
Record Win (k : sub_id) (A : obs) (w : World) : Prop := mkWin {
  win_len : length (subs w) = S k;
  win_old : forall j sb, j < k -> subs w !! j = Some sb ->
      sub_status sb = SubUnsubscribed;
  win_new : exists sb, subs w !! k = Some sb /\ sub_input sb = A;
  win_src : a_input (argsRef w) = A;
  win_ref : forall j, subscriptionRef w = Some j -> j < k;
  win_err : holds_value (errorRef w) ->
      forall sb, subs w !! k = Some sb -> sub_status sb <> SubActive
}.

(** A step of the window that does not terminate the subscription. *)
Definition non_terminal (s : sync_step) : Prop :=
  match s with
  | SyncPush (NError _) | SyncPush NComplete => False
  | _ => True
  end.

(** In world [w] the action [a] pushes the error [x] through an active
    subscription (or inside a commit's [subscribe]) while no error
    callback is current. *)
Definition unhandled (a : saction) (w : World) (x : val) : Prop :=
  a_error (argsRef w) = None /\
  match a with
  | Act (Emit k (NError e)) =>
      e = x /\ exists sb, subs w !! k = Some sb /\ sub_status sb = SubActive
  | CommitSync window => In (SyncPush (NError x)) window
  | _ => False
  end.

(** A trace whose renders, plain or not, keep the source [A]. *)
Definition keeps_source_s (A : obs) (a : saction) : Prop :=
  match a with
  | Act a => keeps_source A a
  | CommitSync _ => True
  end.


Definition args_B_bare : Args := mkArgs 2 None None None.

(** A bound and active, B rendered but not committed, no callbacks. *)
Definition w_stale : World :=
  state_of (run [Render args_bare; Commit; Render args_B_bare]) (init args_bare).

(** ** Further observations on logs and traces *)

(** A caller-supplied callback is called, or a re-render is forced. *)
Definition is_delivery (e : event) : bool :=
  match e with
  | EvNext _ _ | EvError _ _ | EvComplete _ | EvForceUpdate => true
  | _ => false
  end.

Definition is_subscribe (e : event) : bool :=
  match e with
  | EvSubscribe _ _ => true
  | _ => false
  end.

Definition is_unsubscribe (e : event) : bool :=
  match e with
  | EvUnsubscribe _ => true
  | _ => false
  end.

Definition is_emit (a : action) : bool :=
  match a with
  | Emit _ _ => true
  | _ => false
  end.

Definition deliveries (l : list event) : nat :=
  length (List.filter is_delivery l).

Definition emits (tr : list action) : nat :=
  length (List.filter is_emit tr).

(** Neither a delivery nor a new subscription. *)
Definition silent (e : event) : Prop :=
  is_delivery e = false /\ is_subscribe e = false.

(** A live instance whose effect has run holds a cleanup. *)
Definition live_bound (w : World) : Prop :=
  alive w = true -> eff_deps w <> None -> eff_cleanup w <> None.

(** ** The service worker's message listeners *)

Module ServiceWorker.

(** [event.data]: [Plain v] is a value whose [type] property reads
    [undefined] (a primitive, or an object without one); [Typed t] is an
    object whose [type] property reads [t]. *)
Inductive data : Type :=
| Plain (v : val)
| Typed (type : val).

Definition data_truthy (d : data) : bool :=
  match d with
  | Plain v => truthy v
  | Typed _ => true
  end.

Definition data_type (d : data) : val :=
  match d with
  | Plain _ => VUndefined
  | Typed t => t
  end.

(** [v === s] for a string literal [s]. *)
Definition is_string (v : val) (s : string) : bool :=
  match v with
  | VStr t => String.eqb t s
  | _ => false
  end.

(** A message event: its data and its ports (by reference). *)
Record MessageEvent : Type := mkEvent {
  ev_data : data;
  ev_ports : list nat
}.

Inductive sw_effect : Type :=
| SkipWaiting
| WaitUntil
| PostMessage (port : nat) (error : val).

(** The first listener: [event.data && event.data.type === 'SKIP_WAITING']. *)
Definition on_skip_waiting (ev : MessageEvent) : list sw_effect :=
  if data_truthy (ev_data ev) && is_string (data_type (ev_data ev)) "SKIP_WAITING"
  then [SkipWaiting]
  else [].

(** The second listener; [rejection] is how the promise of
    [self.skipWaiting ()] settles: [None] when it resolves, [Some error]
    when it rejects. *)
Definition on_skip_waiting_reply (rejection : option val) (ev : MessageEvent)
  : list sw_effect :=
  match ev_ports ev with
  | replyPort :: _ =>
      if data_truthy (ev_data ev) && is_string (data_type (ev_data ev)) "skip-waiting"
      then [SkipWaiting; WaitUntil;
            PostMessage replyPort
              (match rejection with None => VNull | Some error => error end)]
      else []
  | [] => []
  end.

(** Both listeners are registered for ['message'], in this order. *)
Definition on_message (rejection : option val) (ev : MessageEvent)
  : list sw_effect :=
  on_skip_waiting ev ++ on_skip_waiting_reply rejection ev.

Definition is_skip (e : sw_effect) : bool :=
  match e with
  | SkipWaiting => true
  | _ => false
  end.

Definition is_post (e : sw_effect) : bool :=
  match e with
  | PostMessage _ _ => true
  | _ => false
  end.

End ServiceWorker.

(** * Properties *)

(** ** Unfolding the monad *)

Ltac unfold_hook :=
  unfold step, commit, unmount, run_cleanup, effect, useSubscription,
    deliver, observer, observer_next, observer_error, observer_complete,
    unsubscribe, subscribe, set_status, forceUpdate in *.

Ltac unfold_m :=
  unfold state_of, events_of, value_of, bind, ret, get, modify, log in *.

Ltac hook_simpl := unfold_hook; unfold_m; cbn in *.

Lemma truthy_holds_value v : truthy v = true -> holds_value v.
Proof. destruct v; simpl; intros H; split; congruence. Qed.

Lemma status_eq_dec (a b : status) : {a = b} + {a <> b}.
Proof. decide equality. Defined.

(** ** Scenarios *)

(** The scenarios of the specification: A is observable 1, B is 2, [log]
    is callback 7 and [errFn] is callback 9. *)

Example scenario_swap :
  events_of
    (run [Render (mkArgs 1 (Some 7) None None); Commit;
          Emit 0 (NNext (VNum 1));
          Render (mkArgs 2 (Some 7) None None); Commit;
          Emit 0 (NNext (VNum 2));
          Emit 1 (NNext (VNum 3))])
    (init (mkArgs 1 (Some 7) None None))
  = [EvSubscribe 0 1; EvNext 7 (VNum 1);
     EvUnsubscribe 0; EvSubscribe 1 2; EvNext 7 (VNum 3)].
Proof. reflexivity. Qed.

Example scenario_escalate :
  events_of
    (run [Render (mkArgs 1 None None None); Commit;
          Emit 0 (NError (VObj 1));
          Render (mkArgs 1 None None None)])
    (init (mkArgs 1 None None None))
  = [EvSubscribe 0 1; EvForceUpdate; EvThrow (VObj 1)].
Proof. reflexivity. Qed.

Example scenario_handled :
  events_of
    (run [Render (mkArgs 1 None (Some 9) None); Commit;
          Emit 0 (NError (VObj 2));
          Render (mkArgs 1 None (Some 9) None)])
    (init (mkArgs 1 None (Some 9) None))
  = [EvSubscribe 0 1; EvError 9 (VObj 2)].
Proof. reflexivity. Qed.

(** The staleness check alone does not cover a source that comes back:
    after A, then B, then a render of A again, the observer of the first
    subscription would dispatch; it is the unsubscription at the rebind
    that keeps it silent. *)
Example scenario_observer_alone :
  events_of (observer 1 (NNext (VNum 2)))
    (state_of (run [Render (mkArgs 1 (Some 7) None None); Commit;
                    Render (mkArgs 2 (Some 7) None None); Commit;
                    Render (mkArgs 1 (Some 7) None None)])
              (init (mkArgs 1 (Some 7) None None)))
  = [EvNext 7 (VNum 2)] /\
  events_of (step (Emit 0 (NNext (VNum 2))))
    (state_of (run [Render (mkArgs 1 (Some 7) None None); Commit;
                    Render (mkArgs 2 (Some 7) None None); Commit;
                    Render (mkArgs 1 (Some 7) None None)])
              (init (mkArgs 1 (Some 7) None None)))
  = [].
Proof. split; reflexivity. Qed.

Lemma state_of_bind {A B} (m : M A) (f : A -> M B) w :
  state_of (bind m f) w = state_of (f (value_of m w)) (state_of m w).
Proof.
  unfold state_of, value_of, bind.
  destruct (m w) as [[a w1] l1]; cbn. now destruct (f a w1) as [[b w2] l2].
Qed.

Lemma events_of_bind {A B} (m : M A) (f : A -> M B) w :
  events_of (bind m f) w
  = events_of m w ++ events_of (f (value_of m w)) (state_of m w).
Proof.
  unfold events_of, state_of, value_of, bind.
  destruct (m w) as [[a w1] l1]; cbn. now destruct (f a w1) as [[b w2] l2].
Qed.

Lemma state_of_run_cons a tr w :
  state_of (run (a :: tr)) w = state_of (run tr) (state_of (step a) w).
Proof. cbn [run]. now rewrite state_of_bind. Qed.

Lemma events_of_run_cons a tr w :
  events_of (run (a :: tr)) w
  = events_of (step a) w ++ events_of (run tr) (state_of (step a) w).
Proof. cbn [run]. now rewrite events_of_bind. Qed.

(** ** The subscription store *)

Lemma lookup_alter_status (l : list Sub) k st j sb' :
  alter (with_status st) k l !! j = Some sb' ->
  exists sb, l !! j = Some sb /\ sub_input sb' = sub_input sb /\
             (sub_status sb' = sub_status sb \/ (j = k /\ sub_status sb' = st)).
Proof.
  intros H. destruct (decide (k = j)) as [->|Hne].
  - rewrite list_lookup_alter_eq in H.
    destruct (l !! j) as [sb|] eqn:E; [|discriminate].
    injection H as <-. exists sb. cbn. auto.
  - rewrite list_lookup_alter_ne in H by assumption.
    exists sb'. auto.
Qed.

Lemma lookup_snoc_sub (l : list Sub) x j sb :
  (l ++ [x]) !! j = Some sb ->
  l !! j = Some sb \/ (j = length l /\ sb = x).
Proof.
  intros H. destruct (decide (j < length l)) as [Hlt|Hge].
  - rewrite lookup_app_l in H by assumption. now left.
  - rewrite lookup_app_r in H by lia.
    destruct (j - length l) as [|n] eqn:E; cbn in H; [|discriminate].
    right. split; [lia|congruence].
Qed.

Lemma lookup_nil_Some {A} (j : nat) (x : A) : @nil A !! j = Some x -> False.
Proof. now rewrite lookup_nil. Qed.

Lemma init_inv args : Inv (init args).
Proof.
  split; cbn; try discriminate; auto.
  all: intros; exfalso; eapply (@lookup_nil_Some Sub); eauto.
Qed.

Lemma lookup_alter_input (l : list Sub) k st j sb :
  l !! j = Some sb ->
  exists sb', alter (with_status st) k l !! j = Some sb' /\
              sub_input sb' = sub_input sb.
Proof.
  intros H. destruct (decide (k = j)) as [->|Hne].
  - rewrite list_lookup_alter_eq, H. cbn. eauto.
  - rewrite list_lookup_alter_ne by assumption. eauto.
Qed.

Lemma step_render_state args w :
  state_of (step (Render args)) w = if alive w then rendered args w else w.
Proof.
  hook_simpl. destruct (alive w); [|reflexivity].
  unfold rendered. cbn. now destruct (truthy (errorRef w)).
Qed.

Lemma run_cleanup_state w : state_of run_cleanup w = cleaned w.
Proof. hook_simpl. unfold cleaned. now destruct (eff_cleanup w). Qed.

Lemma commit_state w : state_of commit w = committed w.
Proof.
  hook_simpl. unfold committed, cleaned.
  destruct (pending w) as [d|]; [|reflexivity].
  destruct (deps_changed (eff_deps w) d); [|reflexivity].
  cbn. now destruct (eff_cleanup w).
Qed.

Lemma step_commit_state w :
  state_of (step Commit) w = if alive w then committed w else w.
Proof.
  rewrite <- commit_state. unfold step. rewrite state_of_bind.
  change (value_of get w) with w. change (state_of get w) with w.
  now destruct (alive w).
Qed.

Lemma step_unmount_state w :
  state_of (step Unmount) w
  = if alive w then set_alive false (set_pending None (cleaned w)) else w.
Proof.
  hook_simpl. unfold cleaned. destruct (alive w); [|reflexivity].
  now destruct (eff_cleanup w).
Qed.

Lemma step_manual_state w :
  state_of (step ManualUnsubscribe) w
  = match subscriptionRef w with Some k => unsubscribed k w | None => w end.
Proof. hook_simpl. now destruct (subscriptionRef w). Qed.

Lemma step_emit_state k n w : state_of (step (Emit k n)) w = delivered k n w.
Proof.
  hook_simpl. unfold delivered, observed, stopped.
  destruct (subs w !! k) as [sb|]; [|reflexivity].
  destruct (sub_status sb); try reflexivity.
  destruct n; cbn; destruct (sub_input sb =? a_input (argsRef w)); cbn;
    try reflexivity.
  - now destruct (a_next (argsRef w)).
  - now destruct (a_error (argsRef w)).
  - now destruct (a_complete (argsRef w)).
Qed.

(** ** Preservation of the invariant *)

Lemma rendered_inv args w : Inv w -> Inv (rendered args w).
Proof.
  intros [Ho Hc Hp He Ht Hr Hf]. unfold rendered. split; cbn; try assumption.
  - intros d. destruct (truthy (errorRef w)); [discriminate|]. congruence.
  - intros Htr. rewrite Htr. discriminate.
Qed.

Lemma unsubscribed_inv k w : Inv w -> Inv (unsubscribed k w).
Proof.
  intros [Ho Hc Hp He Ht Hr Hf]. unfold unsubscribed. split; cbn; try assumption.
  - intros j sb' H Hs.
    apply lookup_alter_status in H as (sb & H & _ & [E|[_ E]]); [|congruence].
    apply (Ho j sb H). congruence.
  - intros j Hj. destruct (Hc j Hj) as (Hr' & sb & H & Hd). split; [assumption|].
    destruct (lookup_alter_input _ k SubUnsubscribed _ _ H) as (sb' & H' & Hi).
    exists sb'. split; [assumption|]. congruence.
  - intros Hv j sb' H.
    apply lookup_alter_status in H as (sb & H & _ & [E|[_ E]]); [|congruence].
    rewrite E. eapply He; eauto.
  - intros j Hj. rewrite length_alter. auto.
  - intros Hd. destruct (Hf Hd) as [-> ?]. auto.
Qed.

Lemma cleaned_all_unsubscribed w : Inv w -> all_unsubscribed (cleaned w).
Proof.
  intros HI j sb' H. unfold cleaned in H.
  destruct (status_eq_dec (sub_status sb') SubUnsubscribed) as [|Hn]; [assumption|].
  exfalso. destruct (eff_cleanup w) as [k|] eqn:Ek.
  - cbn in H. destruct (decide (k = j)) as [->|Hne].
    + rewrite list_lookup_alter_eq in H.
      destruct (subs w !! j); cbn in H; [|discriminate].
      injection H as <-. now cbn in Hn.
    + rewrite list_lookup_alter_ne in H by assumption.
      pose proof (inv_open w HI j sb' H Hn). congruence.
  - pose proof (inv_open w HI j sb' H Hn). congruence.
Qed.

Lemma cleaned_inv w : Inv w -> Inv (cleaned w).
Proof.
  intros HI. pose proof (cleaned_all_unsubscribed w HI) as Hall.
  unfold cleaned in *. destruct (eff_cleanup w) as [k|] eqn:Ek; [|assumption].
  pose proof (unsubscribed_inv k w HI) as [Ho Hc Hp He Ht Hr Hf].
  split; cbn in *; try assumption; try discriminate.
  intros j sb' H Hs. exfalso. eauto.
Qed.

Lemma subscribed_inv d w :
  Inv w -> all_unsubscribed w -> d = a_input (argsRef w) ->
  pending w = None -> Inv (subscribed d w).
Proof.
  intros [Ho Hc Hp He Ht Hr Hf] Hall -> Hpn. unfold subscribed.
  split; cbn; try discriminate.
  - intros j sb H Hs. apply lookup_snoc_sub in H as [H|[-> _]]; [|reflexivity].
    exfalso. apply Hs. eapply Hall; eauto.
  - intros j [= <-]. split; [reflexivity|].
    exists (mkSub (a_input (argsRef w)) SubActive). split; [|reflexivity].
    now rewrite lookup_app_r, Nat.sub_diag by lia.
  - rewrite Hpn. discriminate.
  - intros [Hv _]. congruence.
  - intros j [= <-]. rewrite length_app. cbn. lia.
Qed.

Lemma committed_inv w : Inv w -> Inv (committed w).
Proof.
  intros HI. unfold committed. destruct (pending w) as [d|] eqn:Ep; [|assumption].
  assert (Inv (set_pending None w)) as HI'.
  { destruct HI as [Ho Hc Hp He Ht Hr Hf]. split; cbn; auto; discriminate. }
  destruct (deps_changed (eff_deps w) d); [|assumption].
  apply subscribed_inv.
  - now apply cleaned_inv.
  - now apply cleaned_all_unsubscribed.
  - rewrite (inv_pending w HI d Ep). unfold cleaned. cbn.
    now destruct (eff_cleanup w).
  - unfold cleaned. cbn. now destruct (eff_cleanup w).
Qed.

Lemma active_is_current w k sb :
  Inv w -> subs w !! k = Some sb -> sub_status sb = SubActive ->
  eff_cleanup w = Some k /\ subscriptionRef w = Some k /\
  eff_deps w = Some (sub_input sb).
Proof.
  intros HI H Hs.
  assert (eff_cleanup w = Some k) as Ec
    by (apply (inv_open w HI k sb H); congruence).
  destruct (inv_cleanup w HI k Ec) as (Hr & sb0 & H0 & Hd).
  repeat split; try assumption. congruence.
Qed.

Lemma set_errorRef_inv e w :
  Inv w -> eff_deps w <> None ->
  (holds_value e -> none_active w) ->
  (truthy e = true -> forall d, pending w = Some d -> eff_deps w = Some d) ->
  Inv (set_errorRef e w).
Proof.
  intros [Ho Hc Hp He Ht Hr Hf] H0 H1 H2. split; cbn; try assumption.
  intros Hd. contradiction.
Qed.

Lemma stopped_inv k n w sb :
  Inv w -> subs w !! k = Some sb -> sub_status sb = SubActive ->
  Inv (stopped k n w).
Proof.
  intros HI Hk Hs. destruct (active_is_current w k sb HI Hk Hs) as (Ec & _ & _).
  destruct HI as [Ho Hc Hp He Ht Hr Hf].
  unfold stopped. destruct n; [now split| |];
    (split; cbn; try assumption;
     [ intros j sb' H Hn;
       apply lookup_alter_status in H as (sb0 & H & _ & [E|[-> _]]);
       [apply (Ho j sb0 H); congruence | assumption]
     | intros j Hj; destruct (Hc j Hj) as (Hr' & sb0 & H & Hd);
       split; [assumption|];
       destruct (lookup_alter_input _ k SubStopped _ _ H) as (sb' & H' & Hi);
       exists sb'; split; [assumption | congruence]
     | intros Hv; exfalso; now apply (He Hv k sb Hk)
     | intros j Hj; rewrite length_alter; auto
     | intros Hd; destruct (Hf Hd) as [Hnil _]; rewrite Hnil in Hk;
       exfalso; eapply (@lookup_nil_Some Sub); eauto ]).
Qed.

Lemma stopped_none_active k n w sb :
  Inv w -> subs w !! k = Some sb -> sub_status sb = SubActive ->
  (forall v, n <> NNext v) ->
  none_active (stopped k n w).
Proof.
  intros HI Hk Hs Hn j sb' H.
  destruct (active_is_current w k sb HI Hk Hs) as (Ec & _ & _).
  assert (alter (with_status SubStopped) k (subs w) !! j = Some sb') as H'
    by (destruct n; [now destruct (Hn value) | exact H | exact H]).
  clear H. destruct (decide (k = j)) as [->|Hne].
  - rewrite list_lookup_alter_eq, Hk in H'. injection H' as <-. discriminate.
  - rewrite list_lookup_alter_ne in H' by assumption. intros Ha.
    destruct (active_is_current w j sb' HI H' Ha) as (Ec' & _ & _). congruence.
Qed.

Lemma delivered_inv k n w : Inv w -> Inv (delivered k n w).
Proof.
  intros HI. unfold delivered.
  destruct (subs w !! k) as [sb|] eqn:Hk; [|assumption].
  destruct (sub_status sb) eqn:Hs; try assumption.
  pose proof (stopped_inv k n w sb HI Hk Hs) as HS.
  destruct (sub_input sb =? a_input (argsRef w)) eqn:Hfresh; [|assumption].
  apply Nat.eqb_eq in Hfresh.
  destruct n as [v|e|]; try assumption.
  assert (none_active (stopped k (NError e) w)) as Hna
    by (eapply stopped_none_active; eauto; discriminate).
  destruct (active_is_current w k sb HI Hk Hs) as (_ & _ & Ed).
  unfold observed. destruct (a_error (argsRef w)).
  - apply set_errorRef_inv; [assumption|cbn; congruence| |discriminate].
    intros [Hv _]. congruence.
  - apply set_errorRef_inv; [assumption|cbn; congruence|auto|].
    intros _ d Hd. cbn in Hd.
    cbn. rewrite Ed, Hfresh. f_equal. symmetry. exact (inv_pending w HI d Hd).
Qed.

Lemma unmounted_inv w : Inv w -> Inv (set_alive false (set_pending None (cleaned w))).
Proof.
  intros HI. destruct (cleaned_inv w HI) as [Ho Hc Hp He Ht Hr Hf].
  split; cbn; auto; discriminate.
Qed.

Lemma step_inv a w : Inv w -> Inv (state_of (step a) w).
Proof.
  intros HI. destruct a as [args| |k n| |].
  - rewrite step_render_state. destruct (alive w); auto using rendered_inv.
  - rewrite step_commit_state. destruct (alive w); auto using committed_inv.
  - rewrite step_emit_state. now apply delivered_inv.
  - rewrite step_manual_state.
    destruct (subscriptionRef w); auto using unsubscribed_inv.
  - rewrite step_unmount_state. destruct (alive w); auto using unmounted_inv.
Qed.

Lemma run_inv tr w : Inv w -> Inv (state_of (run tr) w).
Proof.
  revert w. induction tr as [|a tr IH]; intros w HI; [exact HI|].
  rewrite state_of_run_cons. apply IH. now apply step_inv.
Qed.

Lemma reachable_inv w : reachable w -> Inv w.
Proof. intros (args & tr & ->). apply run_inv, init_inv. Qed.

(** ** Subscriptions never come back to life *)

Lemma subs_evolve_refl l : subs_evolve l l.
Proof. intros k sb H. exists sb. unfold sub_evolves. auto. Qed.

Lemma subs_evolve_trans l1 l2 l3 :
  subs_evolve l1 l2 -> subs_evolve l2 l3 -> subs_evolve l1 l3.
Proof.
  intros H12 H23 k sb H.
  destruct (H12 k sb H) as (sb2 & H2 & Hi2 & Hs2).
  destruct (H23 k sb2 H2) as (sb3 & H3 & Hi3 & Hs3).
  exists sb3. split; [assumption|]. split; [congruence|].
  destruct Hs3 as [E|N]; [|now right].
  destruct Hs2 as [E2|N2]; [left|right]; congruence.
Qed.

Lemma subs_evolve_alter l k st :
  st <> SubActive -> subs_evolve l (alter (with_status st) k l).
Proof.
  intros Hst j sb H. destruct (decide (k = j)) as [->|Hne].
  - rewrite list_lookup_alter_eq, H. cbn. eexists. split; [reflexivity|].
    split; cbn; auto.
  - rewrite list_lookup_alter_ne by assumption. exists sb.
    unfold sub_evolves. auto.
Qed.

Lemma subs_evolve_snoc l x : subs_evolve l (l ++ [x]).
Proof.
  intros j sb H. exists sb. split; [now apply lookup_app_l_Some|].
  unfold sub_evolves. auto.
Qed.

Lemma cleaned_evolves w : subs_evolve (subs w) (subs (cleaned w)).
Proof.
  unfold cleaned. destruct (eff_cleanup w); [|apply subs_evolve_refl].
  cbn. now apply subs_evolve_alter.
Qed.

Lemma step_evolves a w : subs_evolve (subs w) (subs (state_of (step a) w)).
Proof.
  destruct a as [args| |k n| |].
  - rewrite step_render_state. destruct (alive w); apply subs_evolve_refl.
  - rewrite step_commit_state. destruct (alive w); [|apply subs_evolve_refl].
    unfold committed. destruct (pending w) as [d|]; [|apply subs_evolve_refl].
    destruct (deps_changed (eff_deps w) d); [|apply subs_evolve_refl].
    cbn. eapply subs_evolve_trans; [|apply subs_evolve_snoc].
    apply (cleaned_evolves (set_pending None w)).
  - rewrite step_emit_state. unfold delivered.
    destruct (subs w !! k) as [sb|]; [|apply subs_evolve_refl].
    destruct (sub_status sb); try apply subs_evolve_refl.
    assert (subs_evolve (subs w) (subs (stopped k n w))) as Hst
      by (destruct n; cbn; [apply subs_evolve_refl| |];
          now apply subs_evolve_alter).
    destruct (sub_input sb =? a_input (argsRef w)); [|assumption].
    unfold observed. destruct n; try assumption.
    now destruct (a_error (argsRef w)).
  - rewrite step_manual_state.
    destruct (subscriptionRef w); [|apply subs_evolve_refl].
    cbn. now apply subs_evolve_alter.
  - rewrite step_unmount_state. destruct (alive w); [|apply subs_evolve_refl].
    apply cleaned_evolves.
Qed.

Lemma run_evolves tr w : subs_evolve (subs w) (subs (state_of (run tr) w)).
Proof.
  revert w. induction tr as [|a tr IH]; intros w; [apply subs_evolve_refl|].
  rewrite state_of_run_cons.
  eapply subs_evolve_trans; [apply step_evolves | apply IH].
Qed.

(** A subscription that is not active stays so, whatever happens next. *)
Lemma inactive_stable tr w k sb :
  subs w !! k = Some sb -> sub_status sb <> SubActive ->
  exists sb', subs (state_of (run tr) w) !! k = Some sb' /\
              sub_status sb' <> SubActive.
Proof.
  intros H Hs. destruct (run_evolves tr w k sb H) as (sb' & H' & _ & [E|N]).
  - exists sb'. split; [assumption|congruence].
  - exists sb'. auto.
Qed.

(** ** What each action logs *)

Lemma step_emit_inactive k n w sb :
  subs w !! k = Some sb -> sub_status sb <> SubActive ->
  step (Emit k n) w = (tt, w, []).
Proof.
  intros H Hs. hook_simpl. rewrite H.
  destruct (sub_status sb); [congruence|reflexivity|reflexivity].
Qed.

Lemma observer_stale input n w :
  input <> a_input (argsRef w) -> observer input n w = (tt, w, []).
Proof.
  intros Hne. apply Nat.eqb_neq in Hne.
  destruct n; hook_simpl; now rewrite Hne.
Qed.

Lemma observer_fresh_events n w :
  events_of (observer (a_input (argsRef w)) n) w = dispatch (argsRef w) n.
Proof.
  destruct n; hook_simpl; rewrite Nat.eqb_refl; cbn.
  - now destruct (a_next (argsRef w)).
  - now destruct (a_error (argsRef w)).
  - now destruct (a_complete (argsRef w)).
Qed.

Lemma step_emit_events k n w sb :
  subs w !! k = Some sb -> sub_status sb = SubActive ->
  events_of (step (Emit k n)) w
  = if sub_input sb =? a_input (argsRef w) then dispatch (argsRef w) n else [].
Proof.
  intros H Hs. hook_simpl. rewrite H, Hs.
  destruct n; cbn; destruct (sub_input sb =? a_input (argsRef w)); cbn;
    try reflexivity.
  - now destruct (a_next (argsRef w)).
  - now destruct (a_error (argsRef w)).
  - now destruct (a_complete (argsRef w)).
Qed.

Lemma step_render_events args w :
  events_of (step (Render args)) w
  = if alive w && truthy (errorRef w) then [EvThrow (errorRef w)] else [].
Proof.
  hook_simpl. destruct (alive w); [|reflexivity].
  now destruct (truthy (errorRef w)).
Qed.

Lemma step_commit_events w :
  events_of (step Commit) w
  = match pending w with
    | Some d =>
        if alive w && deps_changed (eff_deps w) d then
          match eff_cleanup w with
          | Some k => [EvUnsubscribe k]
          | None => []
          end ++ [EvSubscribe (length (subs w)) (a_input (argsRef w))]
        else []
    | None => []
    end.
Proof.
  hook_simpl. destruct (alive w); cbn; [|now destruct (pending w)].
  destruct (pending w) as [d|]; [|reflexivity]. cbn.
  destruct (deps_changed (eff_deps w) d); [|reflexivity]. cbn.
  destruct (eff_cleanup w); cbn; [|reflexivity].
  now rewrite length_alter.
Qed.

(** ** Who writes the error cell, and who throws *)

(** A step leaves [errorRef] alone unless it is a commit that runs the
    effect, or the delivery of an error by an active, non-stale
    subscription. *)
Lemma step_errorRef_cases a w :
  errorRef (state_of (step a) w) = errorRef w \/
  (a = Commit /\ alive w = true /\ errorRef (state_of (step a) w) = VNull /\
   exists d, pending w = Some d /\ deps_changed (eff_deps w) d = true) \/
  (exists k e sb, a = Emit k (NError e) /\ subs w !! k = Some sb /\
     sub_status sb = SubActive /\ sub_input sb = a_input (argsRef w) /\
     errorRef (state_of (step a) w)
     = match a_error (argsRef w) with Some _ => VNull | None => e end).
Proof.
  destruct a as [args| |k n| |].
  - left. rewrite step_render_state. now destruct (alive w).
  - rewrite step_commit_state. destruct (alive w); [|now left].
    unfold committed. destruct (pending w) as [d|]; [|now left].
    destruct (deps_changed (eff_deps w) d) eqn:Hd; [|now left].
    right; left. repeat split; eauto.
  - rewrite step_emit_state. unfold delivered.
    destruct (subs w !! k) as [sb|] eqn:Hk; [|now left].
    destruct (sub_status sb) eqn:Hs; try now left.
    destruct (sub_input sb =? a_input (argsRef w)) eqn:Hf;
      [|left; now destruct n].
    destruct n as [v|e|]; [now left| |now left].
    right; right. exists k, e, sb. apply Nat.eqb_eq in Hf.
    repeat split; try assumption. cbn. now destruct (a_error (argsRef w)).
  - left. rewrite step_manual_state. now destruct (subscriptionRef w).
  - left. rewrite step_unmount_state. destruct (alive w); [|reflexivity].
    unfold cleaned. now destruct (eff_cleanup w).
Qed.

Lemma dispatch_no_throw args n x : ~ In (EvThrow x) (dispatch args n).
Proof.
  destruct n; cbn;
    [destruct (a_next args)|destruct (a_error args)|destruct (a_complete args)];
    cbn; intuition congruence.
Qed.

(** Only a render throws, and what it throws is the truthy content of
    [errorRef]. *)
Lemma step_throw_inv a w x :
  In (EvThrow x) (events_of (step a) w) ->
  (exists args, a = Render args) /\ truthy (errorRef w) = true /\ x = errorRef w.
Proof.
  destruct a as [args| |k n| |]; intros Hin.
  - rewrite step_render_events in Hin.
    destruct (alive w); cbn in Hin; [|contradiction].
    destruct (truthy (errorRef w)); cbn in Hin; [|contradiction].
    destruct Hin as [[= <-]|[]]. eauto.
  - exfalso. rewrite step_commit_events in Hin.
    destruct (pending w) as [d|]; [|contradiction].
    destruct (alive w && deps_changed (eff_deps w) d); [|contradiction].
    destruct (eff_cleanup w); cbn in Hin; intuition congruence.
  - exfalso. destruct (subs w !! k) as [sb|] eqn:Hk.
    + destruct (status_eq_dec (sub_status sb) SubActive) as [Hs|Hs].
      * rewrite (step_emit_events k n w sb Hk Hs) in Hin.
        destruct (sub_input sb =? a_input (argsRef w)); [|contradiction].
        now apply dispatch_no_throw in Hin.
      * unfold events_of in Hin.
        now rewrite (step_emit_inactive k n w sb Hk Hs) in Hin.
    + hook_simpl. now rewrite Hk in Hin.
  - exfalso. hook_simpl. destruct (subscriptionRef w); cbn in Hin;
      intuition congruence.
  - exfalso. hook_simpl. destruct (alive w); cbn in Hin; [|contradiction].
    destruct (eff_cleanup w); cbn in Hin; intuition congruence.
Qed.


(** * The claims *)

(** The world right after a commit that rebinds: the old subscription is
    unsubscribed and a fresh one, on the latest rendered source, is in the
    ref. *)
Lemma committed_swap w kA sbA B :
  Inv w -> eff_cleanup w = Some kA -> subs w !! kA = Some sbA ->
  pending w = Some B -> B <> sub_input sbA ->
  committed w = subscribed B (set_eff_cleanup None (unsubscribed kA (set_pending None w))).
Proof.
  intros HI Ec Hk Hp Hne. unfold committed. rewrite Hp.
  destruct (inv_cleanup w HI kA Ec) as (_ & sb0 & H0 & Ed).
  assert (sb0 = sbA) as -> by congruence.
  rewrite Ed. cbn. apply Nat.eqb_neq in Hne. rewrite Nat.eqb_sym in Hne.
  rewrite Hne. cbn. unfold cleaned. cbn. now rewrite Ec.
Qed.

(** C1 (no stale delivery).  Let A's subscription [kA] be the bound one of
    a reachable world, and let a commit rebind to a different source B.
    Then in every later world, whatever renders, commits, emissions or
    teardowns came in between, a notification (next, error or complete) of
    [kA] logs nothing -- no callback call, no forceUpdate -- and leaves the
    whole world, the pending-error cell included, as it was.  The observer
    of A drops it by itself, too, as long as the latest rendered source is
    not A. *)
Theorem no_stale_delivery (w : World) (kA : sub_id) (sbA : Sub) (B : obs) :
  reachable w -> alive w = true ->
  eff_cleanup w = Some kA -> subs w !! kA = Some sbA ->
  pending w = Some B -> B <> sub_input sbA ->
  forall (tr : list action) (n : notif),
    let w' := state_of (run tr) (state_of (step Commit) w) in
    step (Emit kA n) w' = (tt, w', []) /\
    (a_input (argsRef w') <> sub_input sbA ->
     observer (sub_input sbA) n w' = (tt, w', [])).
Proof.
  intros Hr Ha Ec Hk Hp Hne tr n w'. pose proof (reachable_inv w Hr) as HI.
  split; [|intros Hs; apply observer_stale; congruence].
  assert (exists sb, subs (state_of (step Commit) w) !! kA = Some sb /\
                     sub_status sb <> SubActive) as (sb & Hsb & Hst).
  { rewrite step_commit_state, Ha, (committed_swap w kA sbA B) by assumption.
    cbn. exists (with_status SubUnsubscribed sbA). split; [|discriminate].
    apply lookup_app_l_Some. now rewrite list_lookup_alter_eq, Hk. }
  destruct (inactive_stable tr _ kA sb Hsb Hst) as (sb' & Hsb' & Hst').
  now apply (step_emit_inactive kA n w' sb').
Qed.

Lemma no_stale_delivery_witness :
  step (Emit 0 (NError (VObj 5)))
       (state_of (run [Render args_A]) (state_of (step Commit) world_A_then_B))
  = (tt, state_of (run [Render args_A]) (state_of (step Commit) world_A_then_B), []).
Proof.
  refine (proj1 (no_stale_delivery world_A_then_B 0 (mkSub 1 SubActive) 2
                   _ _ _ _ _ _ [Render args_A] (NError (VObj 5)))).
  - exists args_A, [Render args_A; Commit; Render args_B]. reflexivity.
  - reflexivity.
  - reflexivity.
  - reflexivity.
  - reflexivity.
  - cbn. lia.
Defined.


Lemma useSubscription_result args w :
  value_of (useSubscription args) w
  = if truthy (errorRef w) then Throw (errorRef w) else Return SubscriptionRef.
Proof. hook_simpl. now destruct (truthy (errorRef w)). Qed.

(** C2, as stated, fails in two ways.  On a falsy error: the bound source
    errors with the number 0 and no error callback; the cell takes 0 and
    forceUpdate is called, yet the next render returns the handle instead
    of throwing 0.  And on a stale emission: in [w_stale] the latest
    render has passed another source, not yet committed, and the truthy
    error of the still bound, still active subscription is dropped -- the
    cell is not set, no re-render is forced, the next render does not
    throw. *)
Lemma error_escalation_counterexample :
  (reachable world_bare /\
   a_error (argsRef world_bare) = None /\
   events_of (step (Emit 0 (NError (VNum 0)))) world_bare = [EvForceUpdate] /\
   errorRef (state_of (step (Emit 0 (NError (VNum 0)))) world_bare) = VNum 0 /\
   value_of (useSubscription args_bare)
            (state_of (step (Emit 0 (NError (VNum 0)))) world_bare)
   = Return SubscriptionRef /\
   value_of (useSubscription args_bare)
            (state_of (step (Emit 0 (NError (VNum 0)))) world_bare)
   <> Throw (VNum 0)) /\
  (reachable w_stale /\
   eff_deps w_stale = Some 1 /\ eff_cleanup w_stale = Some 0 /\
   subs w_stale !! 0 = Some (mkSub 1 SubActive) /\
   a_error (argsRef w_stale) = None /\
   truthy (VObj 1) = true /\
   events_of (step (Emit 0 (NError (VObj 1)))) w_stale = [] /\
   errorRef (state_of (step (Emit 0 (NError (VObj 1)))) w_stale) = VNull /\
   value_of (useSubscription args_B_bare)
            (state_of (step (Emit 0 (NError (VObj 1)))) w_stale)
   = Return SubscriptionRef).
Proof.
  split.
  - split; [exists args_bare, [Render args_bare; Commit]; reflexivity|].
    repeat split; try reflexivity. discriminate.
  - split; [exists args_bare, [Render args_bare; Commit; Render args_B_bare];
            reflexivity|].
    repeat split; reflexivity.
Qed.


(** C3 (callback freshness without resubscription).  Let the last effect
    run have bound source A, and render again with the same source but
    any callbacks [args'], then commit.  The commit logs nothing -- no
    subscribe, no unsubscribe -- and render and commit together leave the
    store of subscriptions, the ref and the cleanup as they were.  A
    notification of an active subscription on A, whether it arrives
    before or after that commit, is dispatched through the callbacks of
    [args'] alone, not through those of any earlier render. *)
Theorem callback_freshness (w : World) (args' : Args) :
  alive w = true -> eff_deps w = Some (a_input args') ->
  events_of (step Commit) (state_of (step (Render args')) w) = [] /\
  subs (state_of (run [Render args'; Commit]) w) = subs w /\
  subscriptionRef (state_of (run [Render args'; Commit]) w) = subscriptionRef w /\
  eff_cleanup (state_of (run [Render args'; Commit]) w) = eff_cleanup w /\
  forall k sb n,
    subs w !! k = Some sb -> sub_status sb = SubActive ->
    sub_input sb = a_input args' ->
    events_of (step (Emit k n)) (state_of (step (Render args')) w)
    = dispatch args' n /\
    events_of (step (Emit k n)) (state_of (run [Render args'; Commit]) w)
    = dispatch args' n.
Proof.
  intros Ha Hd.
  assert (state_of (step (Render args')) w = rendered args' w) as E1
    by (now rewrite step_render_state, Ha).
  assert (state_of (run [Render args'; Commit]) w
          = set_pending None (set_argsRef args' w)) as E2.
  { rewrite state_of_run_cons, E1. cbn [run]. rewrite state_of_bind.
    change (state_of (ret tt) ?x) with x. rewrite step_commit_state. cbn.
    rewrite Ha. unfold committed, rendered. cbn.
    destruct (truthy (errorRef w)); [reflexivity|].
    rewrite Hd. cbn. now rewrite Nat.eqb_refl. }
  split.
  { rewrite E1, step_commit_events. unfold rendered. cbn.
    destruct (truthy (errorRef w)); [reflexivity|].
    rewrite Hd. cbn. rewrite Nat.eqb_refl. now rewrite andb_false_r. }
  rewrite E1, E2. unfold rendered. cbn.
  split; [reflexivity|]. split; [reflexivity|]. split; [reflexivity|].
  intros k sb n Hk Hs Hsame.
  split; rewrite (step_emit_events k n _ sb) by assumption; cbn;
    now rewrite Hsame, Nat.eqb_refl.
Qed.

Lemma callback_freshness_witness :
  events_of (step (Emit 0 (NNext (VNum 3))))
            (state_of (run [Render (mkArgs 1 (Some 8) None None); Commit]) world_A)
  = [EvNext 8 (VNum 3)].
Proof.
  refine (proj2 (proj2 (proj2 (proj2 (proj2
           (callback_freshness world_A (mkArgs 1 (Some 8) None None) _ _))))
           0 (mkSub 1 SubActive) (NNext (VNum 3)) _ _ _)).
  - reflexivity.
  - reflexivity.
  - reflexivity.
  - reflexivity.
  - reflexivity.
Defined.

(** ** Counting open subscriptions *)

Lemma filter_open_nil (l : list Sub) :
  (forall j y, l !! j = Some y -> is_open y = false) ->
  List.filter is_open l = [].
Proof.
  induction l as [|x l IH]; intros H; [reflexivity|].
  cbn. rewrite (H 0 x eq_refl). apply IH. intros j y Hj. exact (H (S j) y Hj).
Qed.

Lemma filter_open_le1 (l : list Sub) :
  (forall i j x y, l !! i = Some x -> l !! j = Some y ->
     is_open x = true -> is_open y = true -> i = j) ->
  length (List.filter is_open l) <= 1.
Proof.
  induction l as [|x l IH]; intros H; [cbn; lia|].
  cbn. destruct (is_open x) eqn:Hx.
  - rewrite filter_open_nil; [cbn; lia|].
    intros j y Hj. destruct (is_open y) eqn:Hy; [|reflexivity].
    discriminate (H 0 (S j) x y eq_refl Hj Hx Hy).
  - apply IH. intros i j a b Hi Hj Ha Hb.
    assert (S i = S j) by exact (H (S i) (S j) a b Hi Hj Ha Hb). lia.
Qed.

Lemma is_open_true sb : is_open sb = true -> sub_status sb <> SubUnsubscribed.
Proof. unfold is_open. destruct (sub_status sb); congruence. Qed.

Lemma inv_open_count w : Inv w -> open_count w <= 1.
Proof.
  intros HI. apply filter_open_le1. intros i j x y Hi Hj Hx Hy.
  pose proof (inv_open w HI i x Hi (is_open_true x Hx)).
  pose proof (inv_open w HI j y Hj (is_open_true y Hy)). congruence.
Qed.

Lemma all_unsubscribed_count w : all_unsubscribed w -> open_count w = 0.
Proof.
  intros Hall. unfold open_count. rewrite filter_open_nil; [reflexivity|].
  intros j y Hj. unfold is_open. now rewrite (Hall j y Hj).
Qed.

(** C4 (at most one subscription).  In every world reachable by renders,
    commits, emissions, manual unsubscriptions and unmounting, at most one
    subscription has not been unsubscribed.  Inside a commit, once the
    cleanup has run and before the effect subscribes, none is open; and a
    commit that rebinds logs the unsubscription of the old subscription
    first and the new subscription second, and nothing else. *)
Theorem at_most_one_subscription (w : World) :
  reachable w ->
  open_count w <= 1 /\
  open_count (state_of run_cleanup w) = 0 /\
  (forall kA B, alive w = true -> eff_cleanup w = Some kA ->
     pending w = Some B -> eff_deps w <> Some B ->
     events_of (step Commit) w
     = [EvUnsubscribe kA; EvSubscribe (length (subs w)) B] /\
     open_count (state_of (step Commit) w) = 1).
Proof.
  intros Hr. pose proof (reachable_inv w Hr) as HI.
  split; [now apply inv_open_count|].
  split; [rewrite run_cleanup_state;
          now apply all_unsubscribed_count, cleaned_all_unsubscribed|].
  intros kA B Ha Ec Hp Hne.
  assert (deps_changed (eff_deps w) B = true) as Hd.
  { unfold deps_changed. destruct (eff_deps w) as [p|]; [|reflexivity].
    apply negb_true_iff, Nat.eqb_neq. congruence. }
  split.
  - rewrite step_commit_events, Hp, Ha, Hd, Ec. cbn.
    now rewrite (inv_pending w HI B Hp).
  - rewrite step_commit_state, Ha. unfold committed. rewrite Hp, Hd.
    unfold open_count, subscribed. cbn [subs].
    rewrite List.filter_app, length_app.
    fold (open_count (cleaned (set_pending None w))).
    rewrite all_unsubscribed_count; [reflexivity|].
    apply cleaned_all_unsubscribed.
    destruct HI as [Ho Hc Hpe He Ht Href Hf]. split; cbn; auto; discriminate.
Qed.

Lemma at_most_one_subscription_witness :
  events_of (step Commit) world_A_then_B = [EvUnsubscribe 0; EvSubscribe 1 2] /\
  open_count (state_of (step Commit) world_A_then_B) = 1.
Proof.
  refine (proj2 (proj2 (at_most_one_subscription world_A_then_B _)) 0 2 _ _ _ _).
  - exists args_A, [Render args_A; Commit; Render args_B]. reflexivity.
  - reflexivity.
  - reflexivity.
  - reflexivity.
  - cbn. congruence.
Defined.


(** ** Persistence of the error cell *)

Lemma persists_same_source tr : forall w A,
  Inv w -> holds_value (errorRef w) ->
  eff_deps w = Some A -> a_input (argsRef w) = A ->
  Forall (keeps_source A) tr ->
  errorRef (state_of (run tr) w) = errorRef w.
Proof.
  induction tr as [|a tr IH]; intros w A HI Hv Hd Hsrc Hall; [reflexivity|].
  apply Forall_cons_1 in Hall as [Ha Hall].
  rewrite state_of_run_cons. pose proof (step_inv a w HI) as HI'.
  assert (errorRef (state_of (step a) w) = errorRef w /\
          eff_deps (state_of (step a) w) = Some A /\
          a_input (argsRef (state_of (step a) w)) = A) as (E1 & E2 & E3).
  { destruct a as [args| |k n| |].
    - rewrite step_render_state. now destruct (alive w).
    - rewrite step_commit_state. destruct (alive w); [|auto].
      unfold committed. destruct (pending w) as [d|] eqn:Hp; [|auto].
      rewrite (inv_pending w HI d Hp), Hsrc, Hd. cbn.
      rewrite Nat.eqb_refl. cbn. auto.
    - rewrite step_emit_state. unfold delivered.
      destruct (subs w !! k) as [sb|] eqn:Hk; [|auto].
      destruct (sub_status sb) eqn:Hs; auto.
      exfalso. now apply (inv_error w HI Hv k sb Hk).
    - rewrite step_manual_state. now destruct (subscriptionRef w).
    - rewrite step_unmount_state. destruct (alive w); [|auto].
      unfold cleaned. now destruct (eff_cleanup w). }
  rewrite (IH _ A); try assumption. now rewrite E1.
Qed.

(** C6 (pending-error persistence).  In a reachable world whose
    [errorRef] holds a value (neither [null] nor [undefined]):
    - a render, with any arguments, leaves the value in place -- also the
      render that throws it, which it does whenever the value is truthy;
    - the only single action that changes the value is a commit that binds
      a new source reference, which sets it to [null] (no emission can
      reach a callback there: the subscription that erred has stopped);
    - hence the value stays across every sequence of actions whose renders
      keep the bound source. *)
Theorem pending_error_persistence (w : World) :
  reachable w -> holds_value (errorRef w) ->
  (forall args,
     errorRef (state_of (useSubscription args) w) = errorRef w /\
     (truthy (errorRef w) = true ->
      value_of (useSubscription args) w = Throw (errorRef w))) /\
  (forall a, errorRef (state_of (step a) w) <> errorRef w ->
     a = Commit /\ errorRef (state_of (step a) w) = VNull /\
     exists B, pending w = Some B /\ eff_deps w <> Some B) /\
  (eff_deps w = Some (a_input (argsRef w)) ->
   forall tr, Forall (keeps_source (a_input (argsRef w))) tr ->
     errorRef (state_of (run tr) w) = errorRef w).
Proof.
  intros Hr Hv. pose proof (reachable_inv w Hr) as HI. repeat split.
  - hook_simpl. now destruct (truthy (errorRef w)).
  - intros Ht. now rewrite useSubscription_result, Ht.
  - destruct (step_errorRef_cases a w)
      as [E|[(-> & _)|(k & e & sb & _ & Hk & Hs & _)]];
      [contradiction|reflexivity|].
    exfalso. now apply (inv_error w HI Hv k sb Hk).
  - destruct (step_errorRef_cases a w)
      as [E|[(_ & _ & E & _)|(k & e & sb & _ & Hk & Hs & _)]];
      [contradiction|exact E|].
    exfalso. now apply (inv_error w HI Hv k sb Hk).
  - destruct (step_errorRef_cases a w)
      as [E|[(_ & _ & _ & d & Hp & Hd)|(k & e & sb & _ & Hk & Hs & _)]];
      [contradiction| |].
    + exists d. split; [assumption|]. intros Heq. rewrite Heq in Hd.
      cbn in Hd. now rewrite Nat.eqb_refl in Hd.
    + exfalso. now apply (inv_error w HI Hv k sb Hk).
  - intros Hd tr Hall. now apply (persists_same_source tr w (a_input (argsRef w))).
Qed.

Lemma pending_error_persistence_witness :
  errorRef (state_of (run [Render args_bare; Commit; Render args_bare;
                           Emit 0 (NNext (VNum 1))]) world_captured)
  = VObj 1.
Proof.
  refine (proj2 (proj2 (pending_error_persistence world_captured _ _)) _ _ _).
  - exists args_bare, [Render args_bare; Commit; Emit 0 (NError (VObj 1))].
    reflexivity.
  - split; discriminate.
  - reflexivity.
  - repeat constructor.
Defined.

(** C7 (render-phase frame condition).  A render-phase call of the hook,
    throwing or not, stores the new tuple in [argsRef] and registers the
    effect with the host; it logs no subscription and no unsubscription,
    and leaves the subscription ref, the error cell, the store of
    subscriptions and the committed effect exactly as they were. *)
Theorem render_frame (args : Args) (w : World) :
  argsRef (state_of (useSubscription args) w) = args /\
  subscriptionRef (state_of (useSubscription args) w) = subscriptionRef w /\
  errorRef (state_of (useSubscription args) w) = errorRef w /\
  subs (state_of (useSubscription args) w) = subs w /\
  eff_deps (state_of (useSubscription args) w) = eff_deps w /\
  eff_cleanup (state_of (useSubscription args) w) = eff_cleanup w /\
  alive (state_of (useSubscription args) w) = alive w /\
  pending (state_of (useSubscription args) w) = Some (a_input args) /\
  events_of (useSubscription args) w = [] /\
  open_count (state_of (step (Render args)) w) = open_count w /\
  argsRef (state_of (step (Render args)) w)
  = (if alive w then args else argsRef w).
Proof.
  assert (state_of (useSubscription args) w
          = set_pending (Some (a_input args)) (set_argsRef args w)) as E
    by (hook_simpl; now destruct (truthy (errorRef w))).
  rewrite E. cbn. repeat split.
  - hook_simpl. now destruct (truthy (errorRef w)).
  - rewrite step_render_state. now destruct (alive w).
  - rewrite step_render_state. now destruct (alive w).
Qed.


Lemma step_eff_deps a w :
  a <> Commit -> eff_deps (state_of (step a) w) = eff_deps w.
Proof.
  intros Hne. destruct a as [args| |k n| |]; [|contradiction| | |].
  - rewrite step_render_state. now destruct (alive w).
  - rewrite step_emit_state. unfold delivered.
    destruct (subs w !! k) as [sb|]; [|reflexivity].
    destruct (sub_status sb); try reflexivity.
    destruct (sub_input sb =? a_input (argsRef w)); destruct n; cbn;
      try reflexivity.
    now destruct (a_error (argsRef w)).
  - rewrite step_manual_state. now destruct (subscriptionRef w).
  - rewrite step_unmount_state. destruct (alive w); [|reflexivity].
    unfold cleaned. now destruct (eff_cleanup w).
Qed.

Lemma run_eff_deps tr : forall w,
  ~ In Commit tr -> eff_deps (state_of (run tr) w) = eff_deps w.
Proof.
  induction tr as [|a tr IH]; intros w Hn; [reflexivity|].
  rewrite state_of_run_cons, IH by (intros H; apply Hn; now right).
  apply step_eff_deps. intros ->. apply Hn. now left.
Qed.


(** ** Staleness *)

Lemma dispatch_slot args n f :
  slot args n = Some f -> dispatch args n = [call_event f n].
Proof. destruct n; cbn; now intros ->. Qed.

(** C10 (staleness is judged against the latest render).  Let [k] be an
    active subscription and [f] the callback that the latest render
    supplied for the slot of a notification.  The notification is
    dispatched -- to [f], and to nothing else -- if and only if the
    source [k] was made on is reference-equal to the source of the latest
    render; otherwise it logs nothing.  Hence once a render has passed a
    different source, and before any commit, the still-active old
    subscription delivers nothing: no call, no forceUpdate, no write to
    the error cell. *)
Theorem staleness_against_latest_render (w : World) (k : sub_id) (sb : Sub) :
  subs w !! k = Some sb -> sub_status sb = SubActive ->
  (forall n f, slot (argsRef w) n = Some f ->
     (In (call_event f n) (events_of (step (Emit k n)) w) <->
      sub_input sb = a_input (argsRef w)) /\
     (sub_input sb = a_input (argsRef w) ->
      events_of (step (Emit k n)) w = [call_event f n]) /\
     (sub_input sb <> a_input (argsRef w) ->
      events_of (step (Emit k n)) w = [])) /\
  (forall n, events_of (step (Emit k n)) w
             = if sub_input sb =? a_input (argsRef w)
               then dispatch (argsRef w) n else []) /\
  (forall args' n, alive w = true -> a_input args' <> sub_input sb ->
     subs (state_of (step (Render args')) w) !! k = Some sb /\
     eff_cleanup (state_of (step (Render args')) w) = eff_cleanup w /\
     events_of (step (Emit k n)) (state_of (step (Render args')) w) = [] /\
     errorRef (state_of (run [Render args'; Emit k n]) w) = errorRef w).
Proof.
  intros Hk Hs. split; [|split].
  - intros n f Hslot. rewrite (step_emit_events k n w sb Hk Hs).
    destruct (sub_input sb =? a_input (argsRef w)) eqn:Hfresh.
    + apply Nat.eqb_eq in Hfresh. rewrite (dispatch_slot _ _ _ Hslot).
      repeat split; auto; try contradiction; try (intros _; now left).
    + apply Nat.eqb_neq in Hfresh.
      repeat split; auto; try contradiction; try (intros []; fail).
  - intros n. now apply step_emit_events.
  - intros args' n Ha Hne.
    assert (state_of (step (Render args')) w = rendered args' w) as E
      by (now rewrite step_render_state, Ha).
    assert ((sub_input sb =? a_input args') = false) as Hstale
      by (apply Nat.eqb_neq; congruence).
    rewrite state_of_run_cons. cbn [run]. rewrite state_of_bind.
    change (state_of (ret tt) ?x) with x. rewrite E.
    repeat split; try assumption.
    + rewrite (step_emit_events k n _ sb) by assumption. cbn.
      now rewrite Hstale.
    + rewrite step_emit_state. unfold delivered. cbn. rewrite Hk, Hs, Hstale.
      now destruct n.
Qed.

Lemma staleness_against_latest_render_witness :
  (In (call_event 7 (NNext (VNum 1)))
      (events_of (step (Emit 0 (NNext (VNum 1)))) world_A) <-> 1 = 1) /\
  events_of (step (Emit 0 (NNext (VNum 1))))
            (state_of (step (Render args_B)) world_A) = [].
Proof.
  destruct (staleness_against_latest_render world_A 0 (mkSub 1 SubActive)
              eq_refl eq_refl) as (H1 & _ & H2).
  split.
  - exact (proj1 (H1 (NNext (VNum 1)) 7 eq_refl)).
  - refine (proj1 (proj2 (proj2 (H2 args_B (NNext (VNum 1)) eq_refl _)))).
    cbn. lia.
Defined.


(** * Further properties of the hook *)



Lemma delivered_frame k n w :
  eff_deps (delivered k n w) = eff_deps w /\
  eff_cleanup (delivered k n w) = eff_cleanup w /\
  alive (delivered k n w) = alive w /\
  pending (delivered k n w) = pending w /\
  argsRef (delivered k n w) = argsRef w /\
  subscriptionRef (delivered k n w) = subscriptionRef w.
Proof.
  unfold delivered. destruct (subs w !! k) as [sb|]; [|auto 10].
  destruct (sub_status sb); auto 10.
  destruct (sub_input sb =? a_input (argsRef w)); destruct n; cbn; auto 10.
  destruct (a_error (argsRef w)); cbn; auto 10.
Qed.



(** Before the first effect run there is no cleanup either. *)
Lemma fresh_no_cleanup w : Inv w -> eff_deps w = None -> eff_cleanup w = None.
Proof.
  intros HI Hd. destruct (eff_cleanup w) as [k|] eqn:Ec; [|reflexivity].
  destruct (inv_cleanup w HI k Ec) as (_ & sb & _ & E). congruence.
Qed.

Lemma step_fresh_events a w :
  Inv w -> eff_deps w = None -> a <> Commit -> events_of (step a) w = [].
Proof.
  intros HI Hd Hne. destruct (inv_fresh w HI Hd) as (Hs & Hr & He).
  pose proof (fresh_no_cleanup w HI Hd) as Hc.
  destruct a as [args| |k n| |]; [|contradiction| | |].
  - rewrite step_render_events, He. cbn. now rewrite andb_false_r.
  - hook_simpl. rewrite Hs. now rewrite lookup_nil.
  - hook_simpl. now rewrite Hr.
  - hook_simpl. destruct (alive w); [|reflexivity]. now rewrite Hc.
Qed.

Lemma run_fresh_events tr : forall w,
  Inv w -> eff_deps w = None -> ~ In Commit tr -> events_of (run tr) w = [].
Proof.
  induction tr as [|a tr IH]; intros w HI Hd Hn; [reflexivity|].
  assert (a <> Commit) as Ha by (intros ->; apply Hn; now left).
  rewrite events_of_run_cons, (step_fresh_events a w HI Hd Ha). cbn.
  apply IH.
  - now apply step_inv.
  - now rewrite step_eff_deps.
  - intros H. apply Hn. now right.
Qed.


(** X1 (nothing happens before the first commit).  From the initial
    world, any sequence of renders, emissions, manual unsubscriptions and
    even an unmount that contains no commit logs nothing at all and makes
    no subscription: the hook never subscribes in the render phase. *)
Theorem no_subscription_before_commit (args0 : Args) (tr : list action) :
  ~ In Commit tr ->
  events_of (run tr) (init args0) = [] /\
  subs (state_of (run tr) (init args0)) = [] /\
  eff_cleanup (state_of (run tr) (init args0)) = None.
Proof.
  intros Hn. pose proof (run_inv tr _ (init_inv args0)) as HI.
  pose proof (run_eff_deps tr (init args0) Hn) as Hd.
  split; [now apply run_fresh_events; [apply init_inv| |]|].
  split; [now destruct (inv_fresh _ HI Hd)|now apply fresh_no_cleanup].
Qed.

Lemma no_subscription_before_commit_witness :
  events_of (run [Render args_A; Render args_B; Emit 0 (NNext (VNum 1));
                  ManualUnsubscribe; Render args_A]) (init args_A) = [].
Proof.
  refine (proj1 (no_subscription_before_commit args_A
            [Render args_A; Render args_B; Emit 0 (NNext (VNum 1));
             ManualUnsubscribe; Render args_A] _)).
  intros [H|[H|[H|[H|[H|[]]]]]]; discriminate.
Defined.



Lemma step_live_bound a w : live_bound w -> live_bound (state_of (step a) w).
Proof.
  unfold live_bound. intros HL.
  destruct (bool_dec (alive w) true) as [Ha|Ha];
    [|apply not_true_is_false in Ha];
    destruct a as [args| |k n| |];
    rewrite ?step_render_state, ?step_commit_state, ?step_unmount_state,
            ?step_manual_state, ?step_emit_state, ?Ha;
    try exact HL; try (intros ?; discriminate).
  - unfold committed. destruct (pending w) as [d|]; [|exact HL].
    destruct (deps_changed (eff_deps w) d); cbn; [discriminate|exact HL].
  - destruct (delivered_frame k n w) as (-> & -> & -> & _). exact HL.
  - destruct (subscriptionRef w); exact HL.
  - destruct (delivered_frame k n w) as (-> & -> & -> & _). exact HL.
  - destruct (subscriptionRef w); exact HL.
Qed.

Lemma run_live_bound tr : forall w,
  live_bound w -> live_bound (state_of (run tr) w).
Proof.
  induction tr as [|a tr IH]; intros w HL; [exact HL|].
  rewrite state_of_run_cons. apply IH. now apply step_live_bound.
Qed.

Lemma reachable_live_bound w : reachable w -> live_bound w.
Proof.
  intros (args & tr & ->). apply run_live_bound.
  intros _ H. now cbn in H.
Qed.

(** X3 (the ref follows the committed render).  In a reachable, live
    world with a rendered but uncommitted call, the commit leaves in
    [subscriptionRef] a subscription that was made on the source of that
    latest render, and records that source as the bound one -- whether
    the commit had to rebind or found the source unchanged. *)
Theorem commit_synchronises (w : World) (d : obs) :
  reachable w -> alive w = true -> pending w = Some d ->
  exists k sb,
    subscriptionRef (state_of (step Commit) w) = Some k /\
    subs (state_of (step Commit) w) !! k = Some sb /\
    sub_input sb = a_input (argsRef w) /\
    argsRef (state_of (step Commit) w) = argsRef w /\
    eff_deps (state_of (step Commit) w) = Some (a_input (argsRef w)) /\
    eff_cleanup (state_of (step Commit) w) = Some k /\
    pending (state_of (step Commit) w) = None.
Proof.
  intros Hr Ha Hp. pose proof (reachable_inv w Hr) as HI.
  pose proof (reachable_live_bound w Hr) as HL.
  pose proof (inv_pending w HI d Hp) as ->.
  rewrite step_commit_state, Ha. unfold committed. rewrite Hp.
  destruct (deps_changed (eff_deps w) (a_input (argsRef w))) eqn:Hd.
  - exists (length (subs (cleaned (set_pending None w)))),
           (mkSub (a_input (argsRef w)) SubActive).
    unfold subscribed. cbn [subscriptionRef subs sub_input argsRef eff_deps
                             eff_cleanup pending].
    assert (argsRef (cleaned (set_pending None w)) = argsRef w) as EA
      by (unfold cleaned; cbn; now destruct (eff_cleanup w)).
    assert (pending (cleaned (set_pending None w)) = None) as EP
      by (unfold cleaned; cbn; now destruct (eff_cleanup w)).
    rewrite EA, EP. repeat split.
    now rewrite lookup_app_r, Nat.sub_diag by lia.
  - unfold deps_changed in Hd. destruct (eff_deps w) as [p|] eqn:Ed; [|discriminate].
    apply negb_false_iff, Nat.eqb_eq in Hd. subst p.
    destruct (eff_cleanup w) as [k|] eqn:Ec.
    + destruct (inv_cleanup w HI k Ec) as (Hrf & sb & Hk & Hsrc).
      exists k, sb. cbn. repeat split; try assumption. congruence.
    + exfalso. apply HL; [assumption|congruence|assumption].
Qed.

Lemma commit_synchronises_witness :
  exists k sb,
    subscriptionRef (state_of (step Commit) world_A_then_B) = Some k /\
    subs (state_of (step Commit) world_A_then_B) !! k = Some sb /\
    sub_input sb = 2.
Proof.
  destruct (commit_synchronises world_A_then_B 2) as (k & sb & H1 & H2 & H3 & _).
  - exists args_A, [Render args_A; Commit; Render args_B]. reflexivity.
  - reflexivity.
  - reflexivity.
  - exists k, sb. repeat split; assumption.
Defined.

(** ** Teardown *)

Lemma alter_unsubscribed_all (l : list Sub) k :
  (forall j sb, l !! j = Some sb -> sub_status sb = SubUnsubscribed) ->
  forall j sb, alter (with_status SubUnsubscribed) k l !! j = Some sb ->
               sub_status sb = SubUnsubscribed.
Proof.
  intros Hall j sb H.
  apply lookup_alter_status in H as (sb0 & H0 & _ & [E|[_ E]]); [|exact E].
  rewrite E. eauto.
Qed.

(** Once unmounted with everything unsubscribed, an instance only ever
    logs further (idempotent) unsubscriptions. *)
Lemma dead_run tr : forall w,
  alive w = false -> all_unsubscribed w ->
  Forall (fun e => is_unsubscribe e = true) (events_of (run tr) w) /\
  all_unsubscribed (state_of (run tr) w) /\
  alive (state_of (run tr) w) = false /\
  length (subs (state_of (run tr) w)) = length (subs w).
Proof.
  induction tr as [|a tr IH]; intros w Ha Hall.
  { split; [constructor|]. split; [exact Hall|]. split; [first [exact Ha|reflexivity]|reflexivity]. }
  rewrite events_of_run_cons, state_of_run_cons.
  assert (Forall (fun e => is_unsubscribe e = true) (events_of (step a) w) /\
          all_unsubscribed (state_of (step a) w) /\
          alive (state_of (step a) w) = false /\
          length (subs (state_of (step a) w)) = length (subs w))
    as (H1 & H2 & H3 & H4).
  { destruct a as [args| |k n| |].
    - rewrite step_render_state, step_render_events, Ha. cbn.
      split; [constructor|]. split; [exact Hall|]. split; [first [exact Ha|reflexivity]|reflexivity].
    - rewrite step_commit_state, step_commit_events, Ha.
      assert (match pending w with
              | Some d =>
                  if false && deps_changed (eff_deps w) d
                  then match eff_cleanup w with
                       | Some k => [EvUnsubscribe k]
                       | None => []
                       end ++ [EvSubscribe (length (subs w)) (a_input (argsRef w))]
                  else []
              | None => []
              end = []) as -> by (now destruct (pending w)).
      split; [constructor|]. split; [exact Hall|]. split; [first [exact Ha|reflexivity]|reflexivity].
    - assert (step (Emit k n) w = (tt, w, [])) as E.
      { destruct (subs w !! k) as [sb|] eqn:Hk.
        - apply (step_emit_inactive k n w sb Hk).
          rewrite (Hall k sb Hk). discriminate.
        - hook_simpl. now rewrite Hk. }
      unfold events_of, state_of. rewrite E. cbn.
      split; [constructor|]. split; [exact Hall|]. split; [first [exact Ha|reflexivity]|reflexivity].
    - rewrite step_manual_state. unfold events_of, step, bind, get. cbn.
      destruct (subscriptionRef w) as [k|]; cbn.
      + split; [repeat constructor|].
        split; [intros j sb; now apply alter_unsubscribed_all|].
        split; [first [exact Ha|reflexivity]|now rewrite length_alter].
      + split; [constructor|]. split; [exact Hall|]. split; [first [exact Ha|reflexivity]|reflexivity].
    - rewrite step_unmount_state, Ha. unfold events_of, step, bind, get. cbn.
      rewrite Ha. cbn.
      split; [constructor|]. split; [exact Hall|]. split; [first [exact Ha|reflexivity]|reflexivity]. }
  destruct (IH _ H3 H2) as (I1 & I2 & I3 & I4).
  split; [now apply Forall_app|]. split; [exact I2|]. split; [exact I3|congruence].
Qed.

(** X4 (teardown is final).  Unmounting a reachable, live instance
    leaves no subscription open.  Afterwards, whatever is attempted --
    renders, commits, late notifications of any subscription, manual
    unsubscriptions, a second unmount -- the log only ever gains
    (harmless) unsubscriptions: no callback is called, no re-render is
    forced, nothing is subscribed, nothing is thrown, and no subscription
    is open again. *)
Theorem teardown_is_final (w : World) (tr : list action) :
  reachable w -> alive w = true ->
  open_count (state_of (step Unmount) w) = 0 /\
  Forall (fun e => is_unsubscribe e = true)
         (events_of (run tr) (state_of (step Unmount) w)) /\
  open_count (state_of (run tr) (state_of (step Unmount) w)) = 0 /\
  length (subs (state_of (run tr) (state_of (step Unmount) w)))
  = length (subs w).
Proof.
  intros Hr Ha. pose proof (reachable_inv w Hr) as HI.
  pose proof (cleaned_all_unsubscribed w HI) as Hall.
  rewrite step_unmount_state, Ha.
  set (w' := set_alive false (set_pending None (cleaned w))).
  assert (all_unsubscribed w') as Hall' by exact Hall.
  destruct (dead_run tr w' eq_refl Hall') as (H1 & H2 & _ & H4).
  repeat split; try assumption.
  - now apply all_unsubscribed_count.
  - now apply all_unsubscribed_count.
  - rewrite H4. unfold w', cleaned. cbn.
    destruct (eff_cleanup w); cbn; [now rewrite length_alter|reflexivity].
Qed.

Lemma teardown_is_final_witness :
  Forall (fun e => is_unsubscribe e = true)
         (events_of (run [Emit 0 (NNext (VNum 1)); Render args_B; Commit;
                          ManualUnsubscribe; Unmount; Emit 0 (NError (VObj 1))])
                    (state_of (step Unmount) world_A)).
Proof.
  refine (proj1 (proj2 (teardown_is_final world_A
            [Emit 0 (NNext (VNum 1)); Render args_B; Commit;
             ManualUnsubscribe; Unmount; Emit 0 (NError (VObj 1))] _ _))).
  - exists args_A, [Render args_A; Commit]. reflexivity.
  - reflexivity.
Defined.

Lemma alter_unsubscribed_twice (l : list Sub) k :
  alter (with_status SubUnsubscribed) k (alter (with_status SubUnsubscribed) k l)
  = alter (with_status SubUnsubscribed) k l.
Proof.
  revert k. induction l as [|x l IH]; intros [|k]; cbn; try reflexivity.
  f_equal. apply IH.
Qed.

Lemma alter_unsubscribed_id (l : list Sub) k :
  (forall sb, l !! k = Some sb -> sub_status sb = SubUnsubscribed) ->
  alter (with_status SubUnsubscribed) k l = l.
Proof.
  revert k. induction l as [|x l IH]; intros [|k] H; cbn; try reflexivity.
  - f_equal. destruct x as [i st]. cbn. unfold with_status. cbn.
    f_equal. symmetry. exact (H (mkSub i st) eq_refl).
  - f_equal. apply IH. intros sb Hk. exact (H sb Hk).
Qed.

(** X5 (double unsubscription is harmless).  In a reachable, live world,
    unsubscribing by hand through the returned ref and then unmounting
    leaves exactly the world that unmounting alone leaves: the cleanup's
    own [unsubscribe] on the already released subscription changes
    nothing. *)
Theorem manual_then_unmount (w : World) :
  reachable w -> alive w = true ->
  state_of (run [ManualUnsubscribe; Unmount]) w = state_of (step Unmount) w.
Proof.
  intros Hr Ha. pose proof (reachable_inv w Hr) as HI.
  rewrite state_of_run_cons. cbn [run]. rewrite state_of_bind.
  change (state_of (ret tt) ?x) with x.
  rewrite step_manual_state, !step_unmount_state.
  destruct (subscriptionRef w) as [k|] eqn:Er; [|reflexivity].
  unfold unsubscribed at 1. cbn [set_subs alive]. rewrite Ha.
  unfold cleaned, unsubscribed. cbn.
  destruct (eff_cleanup w) as [k0|] eqn:Ec; cbn.
  - destruct (inv_cleanup w HI k0 Ec) as (Hr0 & _).
    assert (k0 = k) as -> by congruence.
    now rewrite alter_unsubscribed_twice.
  - rewrite alter_unsubscribed_id; [reflexivity|].
    intros sb Hk. destruct (status_eq_dec (sub_status sb) SubUnsubscribed) as [E|N];
      [exact E|].
    pose proof (inv_open w HI k sb Hk N). congruence.
Qed.

Lemma manual_then_unmount_witness :
  state_of (run [ManualUnsubscribe; Unmount]) world_A
  = state_of (step Unmount) world_A.
Proof.
  refine (manual_then_unmount world_A _ _).
  - exists args_A, [Render args_A; Commit]. reflexivity.
  - reflexivity.
Defined.

(** ** Where thrown values and deliveries come from *)

Lemma throw_provenance tr : forall w x,
  In (EvThrow x) (events_of (run tr) w) ->
  truthy x = true /\ (x = errorRef w \/ exists k, In (Emit k (NError x)) tr).
Proof.
  induction tr as [|a tr IH]; intros w x Hin; [destruct Hin|].
  rewrite events_of_run_cons in Hin. apply in_app_iff in Hin as [Hin|Hin].
  - apply step_throw_inv in Hin as (_ & Ht & ->). auto.
  - destruct (IH _ _ Hin) as (Ht & [E|(k & Hk)]).
    + split; [exact Ht|].
      destruct (step_errorRef_cases a w)
        as [E'|[(_ & _ & E' & _)|(k & e & sb & -> & _ & _ & _ & E')]].
      * left. congruence.
      * exfalso. rewrite E, E' in Ht. discriminate.
      * right. exists k. left. rewrite E, E' in *.
        destruct (a_error (argsRef w)); [discriminate|reflexivity].
    + split; [exact Ht|]. right. exists k. now right.
Qed.

(** X6 (a render only throws what the source raised).  Along any trace
    from the initial world, a value thrown by a render is truthy and was
    delivered as an error notification by an action of that same trace:
    the hook never invents an exception. *)
Theorem thrown_errors_were_emitted (args0 : Args) (tr : list action) (x : val) :
  In (EvThrow x) (events_of (run tr) (init args0)) ->
  truthy x = true /\ exists k, In (Emit k (NError x)) tr.
Proof.
  intros Hin. destruct (throw_provenance tr _ _ Hin) as (Ht & [E|H]).
  - exfalso. cbn in E. subst x. discriminate.
  - auto.
Qed.

Lemma thrown_errors_were_emitted_witness :
  truthy (VObj 1) = true /\
  exists k, In (Emit k (NError (VObj 1)))
               [Render args_bare; Commit; Emit 0 (NError (VObj 1));
                Render args_bare].
Proof.
  refine (thrown_errors_were_emitted args_bare
            [Render args_bare; Commit; Emit 0 (NError (VObj 1)); Render args_bare]
            (VObj 1) _).
  vm_compute. auto.
Defined.

Lemma dispatch_deliveries args n : deliveries (dispatch args n) <= 1.
Proof.
  destruct n; cbn;
    [destruct (a_next args)|destruct (a_error args)|destruct (a_complete args)];
    cbn; lia.
Qed.

Lemma step_deliveries a w :
  deliveries (events_of (step a) w) <= (if is_emit a then 1 else 0).
Proof.
  destruct a as [args| |k n| |]; cbn [is_emit].
  - rewrite step_render_events.
    destruct (alive w && truthy (errorRef w)); cbn; lia.
  - rewrite step_commit_events. destruct (pending w) as [d|]; [|cbn; lia].
    destruct (alive w && deps_changed (eff_deps w) d); [|cbn; lia].
    destruct (eff_cleanup w); cbn; lia.
  - destruct (subs w !! k) as [sb|] eqn:Hk.
    + destruct (status_eq_dec (sub_status sb) SubActive) as [Hs|Hs].
      * rewrite (step_emit_events k n w sb Hk Hs).
        destruct (sub_input sb =? a_input (argsRef w));
          [apply dispatch_deliveries|cbn; lia].
      * unfold events_of. rewrite (step_emit_inactive k n w sb Hk Hs). cbn. lia.
    + hook_simpl. rewrite Hk. cbn. lia.
  - hook_simpl. destruct (subscriptionRef w); cbn; lia.
  - hook_simpl. destruct (alive w); cbn; [|lia].
    destruct (eff_cleanup w); cbn; lia.
Qed.

(** X7 (one delivery per notification at most).  Along any trace from
    any world, the number of callback calls and forced re-renders in the
    log never exceeds the number of notifications pushed by
    subscriptions: renders, commits, manual unsubscriptions and unmounts
    never call a caller-supplied callback, and a notification calls at
    most one (so a change of callbacks alone triggers no emission). *)
Theorem deliveries_bounded_by_emissions (tr : list action) (w : World) :
  deliveries (events_of (run tr) w) <= emits tr.
Proof.
  revert w. induction tr as [|a tr IH]; intros w; [cbn; lia|].
  rewrite events_of_run_cons. unfold deliveries, emits in *.
  rewrite List.filter_app, length_app. cbn [List.filter].
  pose proof (step_deliveries a w) as Hs. unfold deliveries in Hs.
  specialize (IH (state_of (step a) w)).
  destruct (is_emit a); cbn [length]; lia.
Qed.



(** ** After a manual unsubscription *)

Lemma cleaned_unsubscribed_all w : all_unsubscribed w -> all_unsubscribed (cleaned w).
Proof.
  intros Hall. unfold cleaned. destruct (eff_cleanup w) as [k|]; [|exact Hall].
  intros j sb. cbn. now apply alter_unsubscribed_all.
Qed.

Lemma step_emit_closed k n w :
  all_unsubscribed w -> step (Emit k n) w = (tt, w, []).
Proof.
  intros Hall. destruct (subs w !! k) as [sb|] eqn:Hk.
  - apply (step_emit_inactive k n w sb Hk). rewrite (Hall k sb Hk). discriminate.
  - hook_simpl. now rewrite Hk.
Qed.



(** * The service worker's message listeners *)

Ltac sw_trivial :=
  cbn; split; [lia|]; split; [lia|];
  split; [intros; first [discriminate|reflexivity]|];
  intros q err Hin; repeat (destruct Hin as [Hin|Hin]; [discriminate|]);
  destruct Hin.

Lemma distinct_message_types v :
  ServiceWorker.is_string v "SKIP_WAITING" = true ->
  ServiceWorker.is_string v "skip-waiting" = false.
Proof.
  destruct v; cbn; try discriminate.
  intros H. apply String.eqb_eq in H. now subst s.
Qed.


Example service_worker_reply :
  ServiceWorker.on_message (Some (VObj 4))
    (ServiceWorker.mkEvent (ServiceWorker.Typed (VStr "skip-waiting")) [5; 6])
  = [ServiceWorker.SkipWaiting; ServiceWorker.WaitUntil;
     ServiceWorker.PostMessage 5 (VObj 4)] /\
  ServiceWorker.on_message None
    (ServiceWorker.mkEvent (ServiceWorker.Typed (VStr "SKIP_WAITING")) [5])
  = [ServiceWorker.SkipWaiting] /\
  ServiceWorker.on_message None
    (ServiceWorker.mkEvent (ServiceWorker.Typed (VStr "skip-waiting")) [])
  = [].
Proof. repeat split. Qed.

(** * Commits on observables that push synchronously *)

Lemma value_of_bind {A B} (m : M A) (f : A -> M B) w :
  value_of (bind m f) w = value_of (f (value_of m w)) (state_of m w).
Proof.
  unfold state_of, value_of, bind.
  destruct (m w) as [[a w1] l1]; cbn. now destruct (f a w1) as [[b w2] l2].
Qed.

Lemma cleaned_length w : length (subs (cleaned w)) = length (subs w).
Proof.
  unfold cleaned. destruct (eff_cleanup w); cbn; [|reflexivity].
  now rewrite length_alter.
Qed.

Lemma effect_sync_state window w :
  state_of (effect_sync window) w
  = set_subscriptionRef (Some (length (subs w)))
      (in_window (length (subs w)) window w) /\
  value_of (effect_sync window) w = length (subs w) /\
  events_of (effect_sync window) w
  = EvSubscribe (length (subs w)) (a_input (argsRef w))
    :: events_of (run (map (sync_action (length (subs w))) window)) (opened w).
Proof.
  unfold effect_sync, subscribe_sync, in_window, opened, subscribe,
    state_of, value_of, events_of, bind, ret, get, modify, log. cbn.
  destruct (run (map (sync_action (length (subs w))) window) _) as [[u v] l].
  cbn. now rewrite !app_nil_r.
Qed.

Lemma commit_sync_state window w :
  state_of (commit_sync window) w = committed_sync window w.
Proof.
  unfold commit_sync, committed_sync.
  rewrite state_of_bind. change (value_of get w) with w.
  change (state_of get w) with w.
  destruct (pending w) as [d|]; [|reflexivity].
  rewrite state_of_bind.
  change (state_of (modify (set_pending None)) w) with (set_pending None w).
  destruct (deps_changed (eff_deps w) d); [|reflexivity].
  rewrite state_of_bind, run_cleanup_state, state_of_bind.
  destruct (effect_sync_state window (cleaned (set_pending None w)))
    as (E1 & E2 & _).
  rewrite E1, E2, cleaned_length. reflexivity.
Qed.

Lemma step_s_state a w :
  state_of (step_s a) w
  = match a with
    | Act a => state_of (step a) w
    | CommitSync window => if alive w then committed_sync window w else w
    end.
Proof.
  destruct a as [a|window]; [reflexivity|].
  unfold step_s. rewrite state_of_bind. change (value_of get w) with w.
  change (state_of get w) with w.
  destruct (alive w); [apply commit_sync_state|reflexivity].
Qed.

Lemma commit_sync_events window w :
  events_of (commit_sync window) w
  = match pending w with
    | Some d =>
        if deps_changed (eff_deps w) d then
          match eff_cleanup w with
          | Some k => [EvUnsubscribe k]
          | None => []
          end
          ++ EvSubscribe (length (subs w)) (a_input (argsRef w))
          :: events_of (run (map (sync_action (length (subs w))) window))
                       (opened (cleaned (set_pending None w)))
        else []
    | None => []
    end.
Proof.
  unfold commit_sync.
  rewrite events_of_bind. change (value_of get w) with w.
  change (state_of get w) with w. change (events_of get w) with (@nil event).
  cbn [app]. destruct (pending w) as [d|]; [|reflexivity].
  rewrite events_of_bind.
  change (state_of (modify (set_pending None)) w) with (set_pending None w).
  change (events_of (modify (set_pending None)) w) with (@nil event). cbn [app].
  destruct (deps_changed (eff_deps w) d); [|reflexivity].
  rewrite events_of_bind, run_cleanup_state, events_of_bind.
  destruct (effect_sync_state window (cleaned (set_pending None w)))
    as (_ & _ & E3).
  rewrite E3, cleaned_length.
  assert (argsRef (cleaned (set_pending None w)) = argsRef w) as ->
    by (unfold cleaned; cbn; now destruct (eff_cleanup w)).
  assert (events_of run_cleanup (set_pending None w)
          = match eff_cleanup w with Some k => [EvUnsubscribe k] | None => [] end)
    as -> by (hook_simpl; now destruct (eff_cleanup w)).
  rewrite events_of_bind.
  change (events_of (modify ?f) ?x) with (@nil event).
  now rewrite !app_nil_r.
Qed.

Lemma step_s_events a w :
  events_of (step_s a) w
  = match a with
    | Act a => events_of (step a) w
    | CommitSync window =>
        if alive w then events_of (commit_sync window) w else []
    end.
Proof.
  destruct a as [a|window]; [reflexivity|].
  unfold step_s. rewrite events_of_bind. change (value_of get w) with w.
  change (state_of get w) with w. change (events_of get w) with (@nil event).
  now destruct (alive w).
Qed.

(** On an observable that pushes nothing inside [subscribe], the general
    commit is the plain one. *)
Lemma commit_sync_nil w :
  state_of (step_s (CommitSync [])) w = state_of (step Commit) w /\
  events_of (step_s (CommitSync [])) w = events_of (step Commit) w.
Proof.
  rewrite step_s_state, step_s_events, step_commit_state, step_commit_events.
  destruct (alive w); [|now destruct (pending w)].
  rewrite commit_sync_events. unfold committed_sync, committed.
  destruct (pending w) as [d|]; [|auto].
  destruct (deps_changed (eff_deps w) d); [|auto]. cbn [andb].
  split.
  - unfold finished, in_window, subscribed, opened. cbn.
    rewrite cleaned_length.
    unfold cleaned. cbn. now destruct (eff_cleanup w).
  - cbn. now destruct (eff_cleanup w).
Qed.

Lemma state_of_run_s_cons a tr w :
  state_of (run_s (a :: tr)) w = state_of (run_s tr) (state_of (step_s a) w).
Proof. cbn [run_s]. now rewrite state_of_bind. Qed.

Lemma events_of_run_s_cons a tr w :
  events_of (run_s (a :: tr)) w
  = events_of (step_s a) w ++ events_of (run_s tr) (state_of (step_s a) w).
Proof. cbn [run_s]. now rewrite events_of_bind. Qed.

Lemma state_of_run_s_app tr1 tr2 w :
  state_of (run_s (tr1 ++ tr2)) w
  = state_of (run_s tr2) (state_of (run_s tr1) w).
Proof.
  revert w. induction tr1 as [|a tr1 IH]; intros w; [reflexivity|].
  rewrite <- app_comm_cons, !state_of_run_s_cons. apply IH.
Qed.

(** Plain traces are traces. *)
Lemma run_s_plain tr w :
  state_of (run_s (map Act tr)) w = state_of (run tr) w /\
  events_of (run_s (map Act tr)) w = events_of (run tr) w.
Proof.
  revert w. induction tr as [|a tr IH]; intros w; [now split|].
  cbn [map]. rewrite state_of_run_s_cons, events_of_run_s_cons,
    state_of_run_cons, events_of_run_cons.
  rewrite step_s_state, step_s_events. destruct (IH (state_of (step a) w)) as [-> ->].
  now split.
Qed.

Lemma reachable_reachable_s w : reachable w -> reachable_s w.
Proof.
  intros (args & tr & ->). exists args, (map Act tr).
  symmetry. apply run_s_plain.
Qed.

(** ** Inside the window *)

Lemma window_step_frame k s w :
  argsRef (state_of (step (sync_action k s)) w) = argsRef w /\
  subscriptionRef (state_of (step (sync_action k s)) w) = subscriptionRef w /\
  eff_deps (state_of (step (sync_action k s)) w) = eff_deps w /\
  eff_cleanup (state_of (step (sync_action k s)) w) = eff_cleanup w /\
  pending (state_of (step (sync_action k s)) w) = pending w /\
  alive (state_of (step (sync_action k s)) w) = alive w.
Proof.
  destruct s as [n|]; cbn [sync_action].
  - rewrite step_emit_state.
    destruct (delivered_frame k n w) as (H1 & H2 & H3 & H4 & H5 & H6).
    auto 10.
  - rewrite step_manual_state. destruct (subscriptionRef w) eqn:E; cbn; auto 10.
Qed.

Lemma window_frame k window : forall w,
  argsRef (state_of (run (map (sync_action k) window)) w) = argsRef w /\
  subscriptionRef (state_of (run (map (sync_action k) window)) w)
  = subscriptionRef w /\
  eff_deps (state_of (run (map (sync_action k) window)) w) = eff_deps w /\
  eff_cleanup (state_of (run (map (sync_action k) window)) w) = eff_cleanup w /\
  pending (state_of (run (map (sync_action k) window)) w) = pending w /\
  alive (state_of (run (map (sync_action k) window)) w) = alive w.
Proof.
  induction window as [|s window IH]; intros w; [cbn; auto 10|].
  cbn [map]. rewrite state_of_run_cons.
  destruct (IH (state_of (step (sync_action k s)) w)) as (-> & -> & -> & -> & -> & ->).
  apply window_step_frame.
Qed.

Lemma win_opened v :
  all_unsubscribed v -> (forall j, subscriptionRef v = Some j -> j < length (subs v)) ->
  Win (length (subs v)) (a_input (argsRef v)) (opened v).
Proof.
  intros Hall Href. unfold opened. split; cbn.
  - rewrite length_app. cbn. lia.
  - intros j sb Hj H. rewrite lookup_app_l in H by assumption. eauto.
  - eexists. split; [now rewrite lookup_app_r, Nat.sub_diag by lia|reflexivity].
  - reflexivity.
  - exact Href.
  - intros [Hv _]. congruence.
Qed.

Lemma win_set_errorRef k A e w :
  Win k A w ->
  (holds_value e -> forall sb, subs w !! k = Some sb -> sub_status sb <> SubActive) ->
  Win k A (set_errorRef e w).
Proof. intros [Hlen Hold Hnew Hsrc Href Herr] He. split; cbn; assumption. Qed.

Lemma win_stop k A w :
  Win k A w ->
  Win k A (set_subs (alter (with_status SubStopped) k (subs w)) w) /\
  forall sb, alter (with_status SubStopped) k (subs w) !! k = Some sb ->
             sub_status sb <> SubActive.
Proof.
  intros [Hlen Hold (sbk & Hk & Hin) Hsrc Href Herr].
  assert (forall sb, alter (with_status SubStopped) k (subs w) !! k = Some sb ->
                     sub_status sb <> SubActive) as Hst.
  { intros sb H. rewrite list_lookup_alter_eq, Hk in H.
    injection H as <-. discriminate. }
  split; [|exact Hst]. split; cbn.
  - now rewrite length_alter.
  - intros j sb Hj H. rewrite list_lookup_alter_ne in H by lia. eauto.
  - rewrite list_lookup_alter_eq, Hk. cbn. eauto.
  - exact Hsrc.
  - exact Href.
  - intros _. exact Hst.
Qed.

Lemma win_step k A s w :
  Win k A w -> Win k A (state_of (step (sync_action k s)) w).
Proof.
  intros HW. pose proof HW as [Hlen Hold (sbk & Hk & Hin) Hsrc Href Herr].
  destruct s as [n|]; cbn [sync_action].
  - rewrite step_emit_state. unfold delivered. rewrite Hk.
    destruct (sub_status sbk) eqn:Hs; try exact HW.
    rewrite Hin, Hsrc, Nat.eqb_refl.
    destruct (win_stop k A w HW) as [HS Hst].
    destruct n as [v|e|]; [exact HW| |exact HS].
    unfold observed, stopped.
    destruct (a_error _); apply win_set_errorRef; try exact HS.
    + intros [Hv _]. congruence.
    + intros _. exact Hst.
  - rewrite step_manual_state.
    destruct (subscriptionRef w) as [j|] eqn:Er; [|exact HW].
    assert (j < k) as Hj by now apply Href.
    split; cbn.
    + now rewrite length_alter.
    + intros i sb Hi H.
      apply lookup_alter_status in H as (sb0 & H0 & _ & [E|[_ E]]); [|exact E].
      rewrite E. eauto.
    + rewrite list_lookup_alter_ne by lia. eauto.
    + exact Hsrc.
    + intros i Hi. apply Href. congruence.
    + intros Hv sb H. rewrite list_lookup_alter_ne in H by lia. eauto.
Qed.

Lemma win_run k A window : forall w,
  Win k A w -> Win k A (state_of (run (map (sync_action k) window)) w).
Proof.
  induction window as [|s window IH]; intros w HW; [exact HW|].
  cbn [map]. rewrite state_of_run_cons. apply IH. now apply win_step.
Qed.

Lemma win_finished k A u :
  Win k A u -> pending u = None -> Inv (finished A k u).
Proof.
  intros [Hlen Hold (sbk & Hk & Hin) Hsrc Href Herr] Hp.
  unfold finished. split; cbn.
  - intros j sb Hj Hs. f_equal.
    assert (j < S k) by (rewrite <- Hlen; now apply lookup_lt_Some in Hj).
    destruct (decide (j = k)) as [->|Hne]; [reflexivity|].
    exfalso. apply Hs. apply (Hold j sb); [lia|exact Hj].
  - intros j [= <-]. split; [reflexivity|]. exists sbk. split; [exact Hk|congruence].
  - rewrite Hp. discriminate.
  - intros Hv j sb Hj.
    assert (j < S k) by (rewrite <- Hlen; now apply lookup_lt_Some in Hj).
    destruct (decide (j = k)) as [->|Hne]; [now apply Herr|].
    rewrite (Hold j sb); [discriminate|lia|exact Hj].
  - rewrite Hp. discriminate.
  - intros j [= <-]. lia.
  - discriminate.
Qed.

Lemma committed_sync_inv window w : Inv w -> Inv (committed_sync window w).
Proof.
  intros HI. unfold committed_sync. destruct (pending w) as [d|] eqn:Ep; [|exact HI].
  assert (Inv (set_pending None w)) as HI'
    by (destruct HI; split; cbn; auto; discriminate).
  destruct (deps_changed (eff_deps w) d); [|exact HI'].
  set (v := cleaned (set_pending None w)).
  assert (Inv v) as HIv by now apply cleaned_inv.
  assert (all_unsubscribed v) as Hall by now apply cleaned_all_unsubscribed.
  assert (length (subs v) = length (subs w)) as Hl
    by exact (cleaned_length (set_pending None w)).
  assert (a_input (argsRef v) = d) as Hsrc.
  { rewrite (inv_pending w HI d Ep). unfold v, cleaned. cbn.
    now destruct (eff_cleanup w). }
  assert (pending v = None) as Hpv
    by (unfold v, cleaned; cbn; now destruct (eff_cleanup w)).
  pose proof (win_opened v Hall (inv_ref v HIv)) as HW.
  rewrite Hl, Hsrc in HW.
  apply win_finished.
  - now apply win_run.
  - unfold in_window.
    destruct (window_frame (length (subs w)) window (opened v))
      as (_ & _ & _ & _ & -> & _). exact Hpv.
Qed.

Lemma step_s_inv a w : Inv w -> Inv (state_of (step_s a) w).
Proof.
  intros HI. rewrite step_s_state. destruct a as [a|window].
  - now apply step_inv.
  - destruct (alive w); [now apply committed_sync_inv|exact HI].
Qed.

Lemma run_s_inv tr : forall w, Inv w -> Inv (state_of (run_s tr) w).
Proof.
  induction tr as [|a tr IH]; intros w HI; [exact HI|].
  rewrite state_of_run_s_cons. apply IH. now apply step_s_inv.
Qed.

Lemma reachable_s_inv w : reachable_s w -> Inv w.
Proof. intros (args & tr & ->). apply run_s_inv, init_inv. Qed.

(** ** Traces with synchronous commits *)

Lemma step_s_evolves a w : subs_evolve (subs w) (subs (state_of (step_s a) w)).
Proof.
  rewrite step_s_state. destruct a as [a|window]; [apply step_evolves|].
  destruct (alive w); [|apply subs_evolve_refl].
  unfold committed_sync. destruct (pending w) as [d|]; [|apply subs_evolve_refl].
  destruct (deps_changed (eff_deps w) d); [|apply subs_evolve_refl].
  cbn [finished subs set_eff_deps set_eff_cleanup set_subscriptionRef].
  unfold in_window.
  eapply subs_evolve_trans; [|apply run_evolves].
  unfold opened. cbn [subs set_subs].
  eapply subs_evolve_trans; [|apply subs_evolve_snoc].
  apply (cleaned_evolves (set_pending None w)).
Qed.

Lemma run_s_evolves tr : forall w,
  subs_evolve (subs w) (subs (state_of (run_s tr) w)).
Proof.
  induction tr as [|a tr IH]; intros w; [apply subs_evolve_refl|].
  rewrite state_of_run_s_cons.
  eapply subs_evolve_trans; [apply step_s_evolves | apply IH].
Qed.

Lemma window_no_throw k window x : forall u,
  ~ In (EvThrow x) (events_of (run (map (sync_action k) window)) u).
Proof.
  induction window as [|s window IH]; intros u; [intros []|].
  cbn [map]. rewrite events_of_run_cons, in_app_iff. intros [H|H].
  - apply step_throw_inv in H as ((args & E) & _). destruct s; discriminate.
  - now apply IH in H.
Qed.

Lemma step_s_throw_inv a w x :
  In (EvThrow x) (events_of (step_s a) w) ->
  (exists args, a = Act (Render args)) /\
  truthy (errorRef w) = true /\ x = errorRef w.
Proof.
  rewrite step_s_events. destruct a as [a|window]; intros Hin.
  - apply step_throw_inv in Hin as ((args & ->) & H2 & H3). eauto.
  - exfalso. destruct (alive w); [|contradiction].
    rewrite commit_sync_events in Hin.
    destruct (pending w) as [d|]; [|contradiction].
    destruct (deps_changed (eff_deps w) d); [|contradiction].
    apply in_app_iff in Hin as [Hin|[Hin|Hin]].
    + destruct (eff_cleanup w); cbn in Hin; intuition congruence.
    + discriminate.
    + now apply window_no_throw in Hin.
Qed.

Lemma window_errorRef k window : forall u,
  errorRef (state_of (run (map (sync_action k) window)) u) = errorRef u \/
  errorRef (state_of (run (map (sync_action k) window)) u) = VNull \/
  (a_error (argsRef u) = None /\
   In (SyncPush (NError (errorRef (state_of (run (map (sync_action k) window)) u))))
      window).
Proof.
  induction window as [|s window IH]; intros u; [now left|].
  cbn [map]. rewrite state_of_run_cons.
  set (u1 := state_of (step (sync_action k s)) u).
  assert (argsRef u1 = argsRef u) as EA by apply window_step_frame.
  destruct (IH u1) as [E|[E|(Hn & Hin)]].
  - rewrite E.
    destruct (step_errorRef_cases (sync_action k s) u)
      as [E'|[(Hc & _)|(j & e & sb & Hs & _ & _ & _ & E')]].
    + now left.
    + destruct s; discriminate.
    + fold u1 in E'. destruct s as [n|]; [|discriminate].
      cbn in Hs. injection Hs as _ ->. rewrite E'.
      destruct (a_error (argsRef u)) eqn:Ha; [now right; left|].
      right; right. split; [reflexivity|]. now left.
  - now right; left.
  - right; right. rewrite <- EA. split; [exact Hn|]. now right.
Qed.

(** A step leaves the error cell alone, or empties it, or stores an
    error that went unhandled. *)
Lemma step_s_errorRef_cases a w :
  errorRef (state_of (step_s a) w) = errorRef w \/
  errorRef (state_of (step_s a) w) = VNull \/
  unhandled a w (errorRef (state_of (step_s a) w)).
Proof.
  rewrite step_s_state. destruct a as [a|window].
  - destruct (step_errorRef_cases a w)
      as [E|[(_ & _ & E & _)|(k & e & sb & -> & Hk & Hs & _ & E)]].
    + now left.
    + now right; left.
    + rewrite E. destruct (a_error (argsRef w)) eqn:Ha; [now right; left|].
      right; right. split; [exact Ha|]. split; [reflexivity|]. eauto.
  - destruct (alive w); [|now left].
    unfold committed_sync. destruct (pending w) as [d|]; [|now left].
    destruct (deps_changed (eff_deps w) d); [|now left].
    cbn [finished errorRef set_eff_deps set_eff_cleanup set_subscriptionRef].
    unfold in_window.
    destruct (window_errorRef (length (subs w)) window
                (opened (cleaned (set_pending None w)))) as [E|[E|(Hn & Hin)]].
    + right; left. rewrite E. reflexivity.
    + now right; left.
    + right; right. split; [|exact Hin].
      rewrite <- Hn. unfold opened, cleaned. cbn.
      now destruct (eff_cleanup w).
Qed.

(** Every value a render throws was pushed as an error, at some earlier
    point of the trace, while no error callback was current -- unless
    it sat in the error cell from the start. *)
Lemma throw_provenance_s tr : forall w x,
  In (EvThrow x) (events_of (run_s tr) w) ->
  truthy x = true /\
  (x = errorRef w \/
   exists tr1 a tr2, tr = tr1 ++ a :: tr2 /\
                     unhandled a (state_of (run_s tr1) w) x).
Proof.
  induction tr as [|a tr IH]; intros w x Hin; [destruct Hin|].
  rewrite events_of_run_s_cons in Hin. apply in_app_iff in Hin as [Hin|Hin].
  - apply step_s_throw_inv in Hin as (_ & Ht & ->). auto.
  - destruct (IH _ _ Hin) as (Ht & [E|(tr1 & b & tr2 & -> & Hu)]).
    + split; [exact Ht|].
      destruct (step_s_errorRef_cases a w) as [E'|[E'|Hu]].
      * left. congruence.
      * exfalso. rewrite E, E' in Ht. discriminate.
      * right. exists [], a, tr. split; [reflexivity|]. now rewrite E.
    + split; [exact Ht|]. right. exists (a :: tr1), b, tr2.
      split; [reflexivity|]. now rewrite state_of_run_s_cons.
Qed.

(** With a truthy error captured, a step keeps the cell and the bound
    source, and subscribes to nothing. *)
Lemma step_s_truthy a w :
  Inv w -> truthy (errorRef w) = true ->
  errorRef (state_of (step_s a) w) = errorRef w /\
  eff_deps (state_of (step_s a) w) = eff_deps w /\
  length (subs (state_of (step_s a) w)) = length (subs w) /\
  Forall (fun e => is_subscribe e = false) (events_of (step_s a) w).
Proof.
  intros HI Ht.
  assert (forall d, pending w = Some d -> deps_changed (eff_deps w) d = false) as Hd.
  { intros d Hp. rewrite (inv_throw w HI Ht d Hp). cbn.
    now rewrite Nat.eqb_refl. }
  assert (forall k n, step (Emit k n) w = (tt, w, [])) as Hemit.
  { intros k n. destruct (subs w !! k) as [sb|] eqn:Hk.
    - apply (step_emit_inactive k n w sb Hk).
      now apply (inv_error w HI (truthy_holds_value _ Ht) k sb Hk).
    - hook_simpl. now rewrite Hk. }
  rewrite step_s_state, step_s_events. destruct a as [[args| |k n| |]|window].
  - rewrite step_render_state, step_render_events.
    destruct (alive w); cbn; rewrite ?Ht; repeat split; repeat constructor.
  - rewrite step_commit_state, step_commit_events. unfold committed.
    destruct (pending w) as [d|] eqn:Ep.
    + rewrite (Hd d eq_refl), andb_false_r.
      destruct (alive w); repeat split; constructor.
    + destruct (alive w); repeat split; constructor.
  - unfold state_of, events_of. rewrite Hemit. cbn. repeat split. constructor.
  - rewrite step_manual_state. unfold events_of, step, bind, get. cbn.
    destruct (subscriptionRef w); cbn; repeat split;
      try (now rewrite length_alter); repeat constructor.
  - rewrite step_unmount_state. unfold events_of, step, unmount, run_cleanup,
      unsubscribe, set_status, bind, get, modify, log, ret. cbn.
    destruct (alive w); cbn; [|repeat split; constructor].
    unfold cleaned. destruct (eff_cleanup w); cbn; repeat split;
      try (now rewrite length_alter); repeat constructor.
  - rewrite commit_sync_events. unfold committed_sync.
    destruct (pending w) as [d|] eqn:Ep.
    + rewrite (Hd d eq_refl).
      destruct (alive w); repeat split; constructor.
    + destruct (alive w); repeat split; constructor.
Qed.

Lemma run_s_truthy tr : forall w,
  Inv w -> truthy (errorRef w) = true ->
  errorRef (state_of (run_s tr) w) = errorRef w /\
  eff_deps (state_of (run_s tr) w) = eff_deps w /\
  length (subs (state_of (run_s tr) w)) = length (subs w) /\
  Forall (fun e => is_subscribe e = false) (events_of (run_s tr) w).
Proof.
  induction tr as [|a tr IH]; intros w HI Ht;
    [repeat split; constructor|].
  rewrite state_of_run_s_cons, events_of_run_s_cons.
  destruct (step_s_truthy a w HI Ht) as (E1 & E2 & E3 & E4).
  destruct (IH (state_of (step_s a) w)) as (I1 & I2 & I3 & I4);
    [now apply step_s_inv|congruence|].
  repeat split; try congruence. now apply Forall_app.
Qed.

(** ** What the window does to the new subscription and the error cell *)

Lemma delivered_next k v w : delivered k (NNext v) w = w.
Proof.
  unfold delivered. destruct (subs w !! k) as [sb|]; [|reflexivity].
  destruct (sub_status sb); try reflexivity.
  now destruct (sub_input sb =? a_input (argsRef w)).
Qed.

Lemma nonterminal_step k s u :
  non_terminal s -> (forall j, subscriptionRef u = Some j -> j <> k) ->
  errorRef (state_of (step (sync_action k s)) u) = errorRef u /\
  subs (state_of (step (sync_action k s)) u) !! k = subs u !! k.
Proof.
  intros Hs Href. destruct s as [[v|e|]|]; cbn in Hs; try contradiction;
    cbn [sync_action].
  - now rewrite step_emit_state, delivered_next.
  - rewrite step_manual_state. destruct (subscriptionRef u) as [j|] eqn:Er;
      [|now split].
    cbn. split; [reflexivity|]. apply list_lookup_alter_ne. now apply Href.
Qed.

Lemma nonterminal_run k window : forall u,
  Forall non_terminal window ->
  (forall j, subscriptionRef u = Some j -> j <> k) ->
  errorRef (state_of (run (map (sync_action k) window)) u) = errorRef u /\
  subs (state_of (run (map (sync_action k) window)) u) !! k = subs u !! k.
Proof.
  induction window as [|s window IH]; intros u Hall Href; [now split|].
  apply Forall_cons_1 in Hall as [Hs Hall].
  cbn [map]. rewrite state_of_run_cons.
  destruct (nonterminal_step k s u Hs Href) as [E1 E2].
  destruct (IH (state_of (step (sync_action k s)) u) Hall) as [I1 I2].
  { destruct (window_step_frame k s u) as (_ & -> & _). exact Href. }
  split; congruence.
Qed.



Lemma opened_new v :
  subs (opened v) !! length (subs v)
  = Some (mkSub (a_input (argsRef v)) SubActive).
Proof. unfold opened. cbn. now rewrite lookup_app_r, Nat.sub_diag by lia. Qed.

(** The explicit world of a commit that rebinds. *)
Lemma committed_sync_rebind window w B :
  pending w = Some B -> eff_deps w <> Some B ->
  committed_sync window w
  = finished B (length (subs w))
      (in_window (length (subs w)) window (cleaned (set_pending None w))).
Proof.
  intros Hp Hne. unfold committed_sync. rewrite Hp.
  assert (deps_changed (eff_deps w) B = true) as ->; [|reflexivity].
  unfold deps_changed. destruct (eff_deps w) as [p|]; [|reflexivity].
  apply negb_true_iff, Nat.eqb_neq. congruence.
Qed.

(** * The claims that depend on staleness and on the window *)

(** A subscription found active later on, when none was, is a new one. *)
Lemma later_active_is_new tr w j sb :
  none_active w ->
  subs (state_of (run_s tr) w) !! j = Some sb -> sub_status sb = SubActive ->
  length (subs w) <= j.
Proof.
  intros Hna Hj Hs. destruct (decide (length (subs w) <= j)) as [|Hlt]; [assumption|].
  exfalso. destruct (lookup_lt_is_Some_2 (subs w) j) as [sb0 H0]; [lia|].
  destruct (run_s_evolves tr w j sb0 H0) as (sb' & H' & _ & [E|N]).
  - assert (sb' = sb) as -> by congruence.
    apply (Hna j sb0 H0). congruence.
  - assert (sb' = sb) as -> by congruence. contradiction.
Qed.

Lemma useSubscription_throws args w :
  truthy (errorRef w) = true ->
  value_of (useSubscription args) w = Throw (errorRef w).
Proof. intros Ht. now rewrite useSubscription_result, Ht. Qed.

(** What the delivery of an error by the bound, active, non-stale
    subscription leaves behind. *)
Lemma error_delivered w k sb e :
  Inv w -> subs w !! k = Some sb -> sub_status sb = SubActive ->
  sub_input sb = a_input (argsRef w) ->
  state_of (step (Emit k (NError e))) w
  = set_errorRef (match a_error (argsRef w) with Some _ => VNull | None => e end)
                 (stopped k (NError e) w) /\
  events_of (step (Emit k (NError e))) w = dispatch (argsRef w) (NError e) /\
  none_active (state_of (step (Emit k (NError e))) w) /\
  length (subs (state_of (step (Emit k (NError e))) w)) = length (subs w).
Proof.
  intros HI Hk Hs Hfresh.
  assert (state_of (step (Emit k (NError e))) w
          = set_errorRef (match a_error (argsRef w) with
                          | Some _ => VNull | None => e end)
                         (stopped k (NError e) w)) as E.
  { rewrite step_emit_state. unfold delivered.
    rewrite Hk, Hs, Hfresh, Nat.eqb_refl. cbn.
    now destruct (a_error (argsRef w)). }
  rewrite E. split; [reflexivity|]. split.
  { now rewrite (step_emit_events k _ w sb Hk Hs), Hfresh, Nat.eqb_refl. }
  split.
  - assert (none_active (stopped k (NError e) w)) as Hna
      by (eapply stopped_none_active; eauto; discriminate).
    exact Hna.
  - cbn. now rewrite length_alter.
Qed.

(** C2, amended (error escalation).  The bound, active subscription [k]
    of a reachable world delivers the error [e] while its source is
    still the one of the latest render.
    - With no error callback current, [errorRef] takes [e] and exactly
      forceUpdate is called; if [e] is truthy, every later call of the
      hook -- the next render pass first of all -- throws exactly [e],
      whatever happens in between.
    - With an error callback [f] current, exactly [f e] is called and
      [errorRef] is left [null]; whatever a later render throws was
      pushed as an error later on, while no error callback was current,
      by a subscription made afterwards. *)
Theorem error_escalation (w : World) (k : sub_id) (sb : Sub) (e : val) :
  reachable_s w ->
  subs w !! k = Some sb -> sub_status sb = SubActive ->
  sub_input sb = a_input (argsRef w) ->
  (a_error (argsRef w) = None ->
     events_of (step (Emit k (NError e))) w = [EvForceUpdate] /\
     errorRef (state_of (step (Emit k (NError e))) w) = e /\
     (truthy e = true -> forall tr args,
        value_of (useSubscription args)
                 (state_of (run_s tr) (state_of (step (Emit k (NError e))) w))
        = Throw e)) /\
  (forall f, a_error (argsRef w) = Some f ->
     events_of (step (Emit k (NError e))) w = [EvError f e] /\
     errorRef (state_of (step (Emit k (NError e))) w) = VNull /\
     forall tr x,
       In (EvThrow x)
          (events_of (run_s tr) (state_of (step (Emit k (NError e))) w)) ->
       exists tr1 a tr2,
         tr = tr1 ++ a :: tr2 /\
         unhandled a (state_of (run_s tr1)
                               (state_of (step (Emit k (NError e))) w)) x /\
         match a with
         | Act (Emit j _) => length (subs w) <= j
         | _ => True
         end).
Proof.
  intros Hr Hk Hs Hfresh. pose proof (reachable_s_inv w Hr) as HI.
  pose proof (step_inv (Emit k (NError e)) w HI) as HI1.
  destruct (error_delivered w k sb e HI Hk Hs Hfresh) as (E & Hev & Hna & Hlen).
  split.
  - intros Hnone. rewrite Hev. cbn. rewrite Hnone.
    split; [reflexivity|]. split; [rewrite E, Hnone; reflexivity|].
    intros Ht tr args.
    assert (errorRef (state_of (step (Emit k (NError e))) w) = e) as Ee
      by (rewrite E, Hnone; reflexivity).
    destruct (run_s_truthy tr _ HI1) as (Ep & _); [congruence|].
    rewrite useSubscription_throws; congruence.
  - intros f Hf. rewrite Hev. cbn. rewrite Hf.
    split; [reflexivity|]. split; [rewrite E, Hf; reflexivity|].
    intros tr x Hin.
    destruct (throw_provenance_s tr _ x Hin) as (Ht & [Ex|(tr1 & a & tr2 & -> & Hu)]).
    + exfalso. rewrite E, Hf in Ex. cbn in Ex. subst x. discriminate.
    + exists tr1, a, tr2. split; [reflexivity|]. split; [exact Hu|].
      destruct a as [[| |j n| |]|]; try exact I.
      destruct n as [v|e'|]; [now destruct Hu as [_ ?]| |now destruct Hu as [_ ?]].
      destruct Hu as (_ & _ & sb' & Hj & Hsj).
      rewrite <- Hlen. exact (later_active_is_new tr1 _ j sb' Hna Hj Hsj).
Qed.

Lemma error_escalation_witness :
  value_of (useSubscription args_B)
           (state_of (run_s [Act (Render args_B);
                             CommitSync [SyncPush (NNext (VNum 4))];
                             Act (Emit 0 (NNext (VNum 4)))])
                     (state_of (step (Emit 0 (NError (VObj 1)))) world_bare))
  = Throw (VObj 1).
Proof.
  refine (proj2 (proj2 (proj1
           (error_escalation world_bare 0 (mkSub 1 SubActive) (VObj 1) _ _ _ _) _))
           _ [Act (Render args_B); CommitSync [SyncPush (NNext (VNum 4))];
              Act (Emit 0 (NNext (VNum 4)))] args_B).
  - exists args_bare, [Act (Render args_bare); Act Commit]. reflexivity.
  - reflexivity.
  - reflexivity.
  - reflexivity.
  - reflexivity.
  - reflexivity.
Defined.

(** C9, as stated, fails once a render has passed another source: in
    [w_stale] source 1 is bound, its subscription 0 is active and is the
    one of the effect, no error callback is current, and the latest
    render has passed source 2 without being committed yet.  The falsy
    error 0 of the bound source is then dropped: the error cell is not
    set to it and forceUpdate is not called. *)
Lemma falsy_error_never_escalates_counterexample :
  reachable w_stale /\
  eff_deps w_stale = Some 1 /\ eff_cleanup w_stale = Some 0 /\
  subs w_stale !! 0 = Some (mkSub 1 SubActive) /\
  a_error (argsRef w_stale) = None /\
  truthy (VNum 0) = false /\
  events_of (step (Emit 0 (NError (VNum 0)))) w_stale = [] /\
  errorRef (state_of (step (Emit 0 (NError (VNum 0)))) w_stale) = VNull /\
  errorRef (state_of (step (Emit 0 (NError (VNum 0)))) w_stale) <> VNum 0.
Proof.
  split; [exists args_bare, [Render args_bare; Commit; Render args_B_bare];
          reflexivity|].
  repeat split; try reflexivity. discriminate.
Qed.

(** C9, amended (falsy errors are stored but never escalate).  The bound,
    active subscription [k] delivers a falsy error [e] -- 0, the empty
    string, false, NaN, null or undefined -- while its source is still
    the one of the latest render and no error callback is current.  Then
    [errorRef] takes [e] and exactly forceUpdate is called, yet the next
    render pass, whatever its arguments, returns the handle and throws
    nothing; and in a reachable world whatever a later render throws was
    pushed as an error later on, while no error callback was current, by
    a subscription made afterwards. *)
Theorem falsy_error_never_escalates (w : World) (k : sub_id) (sb : Sub) (e : val) :
  subs w !! k = Some sb -> sub_status sb = SubActive ->
  sub_input sb = a_input (argsRef w) ->
  a_error (argsRef w) = None ->
  truthy e = false ->
  errorRef (state_of (step (Emit k (NError e))) w) = e /\
  events_of (step (Emit k (NError e))) w = [EvForceUpdate] /\
  (forall args,
     value_of (useSubscription args) (state_of (step (Emit k (NError e))) w)
     = Return SubscriptionRef /\
     events_of (step (Render args)) (state_of (step (Emit k (NError e))) w) = []) /\
  (reachable_s w -> forall tr x,
     In (EvThrow x)
        (events_of (run_s tr) (state_of (step (Emit k (NError e))) w)) ->
     exists tr1 a tr2,
       tr = tr1 ++ a :: tr2 /\
       unhandled a (state_of (run_s tr1)
                             (state_of (step (Emit k (NError e))) w)) x /\
       match a with
       | Act (Emit j _) => length (subs w) <= j
       | _ => True
       end).
Proof.
  intros Hk Hs Hfresh Hnone Hf.
  assert (state_of (step (Emit k (NError e))) w
          = set_errorRef e (stopped k (NError e) w)) as E.
  { rewrite step_emit_state. unfold delivered.
    rewrite Hk, Hs, Hfresh, Nat.eqb_refl. cbn. now rewrite Hnone. }
  split; [now rewrite E|]. split.
  { rewrite (step_emit_events k _ w sb Hk Hs), Hfresh, Nat.eqb_refl.
    cbn. now rewrite Hnone. }
  split.
  - intros args. rewrite useSubscription_result, step_render_events, E. cbn.
    rewrite Hf. now rewrite andb_false_r.
  - intros Hr tr x Hin. pose proof (reachable_s_inv w Hr) as HI.
    destruct (error_delivered w k sb e HI Hk Hs Hfresh) as (_ & _ & Hna & Hlen).
    destruct (throw_provenance_s tr _ x Hin) as (Ht & [Ex|(tr1 & a & tr2 & -> & Hu)]).
    + exfalso. rewrite E in Ex. cbn in Ex. congruence.
    + exists tr1, a, tr2. split; [reflexivity|]. split; [exact Hu|].
      destruct a as [[| |j n| |]|]; try exact I.
      destruct n as [v|e'|]; [now destruct Hu as [_ ?]| |now destruct Hu as [_ ?]].
      destruct Hu as (_ & _ & sb' & Hj & Hsj).
      rewrite <- Hlen. exact (later_active_is_new tr1 _ j sb' Hna Hj Hsj).
Qed.

Lemma falsy_error_never_escalates_witness :
  errorRef (state_of (step (Emit 0 (NError (VStr EmptyString)))) world_bare)
  = VStr EmptyString /\
  value_of (useSubscription args_bare)
           (state_of (step (Emit 0 (NError (VStr EmptyString)))) world_bare)
  = Return SubscriptionRef.
Proof.
  destruct (falsy_error_never_escalates world_bare 0 (mkSub 1 SubActive)
              (VStr EmptyString) eq_refl eq_refl eq_refl eq_refl eq_refl)
    as (E & _ & H & _).
  split; [exact E|]. exact (proj1 (H args_bare)).
Defined.

(** The world in which a rebinding commit has just registered the
    observer. *)
Lemma rebind_window w :
  Inv w ->
  subs (opened (cleaned (set_pending None w))) !! length (subs w)
  = Some (mkSub (a_input (argsRef w)) SubActive) /\
  argsRef (opened (cleaned (set_pending None w))) = argsRef w /\
  errorRef (opened (cleaned (set_pending None w))) = VNull /\
  subscriptionRef (opened (cleaned (set_pending None w))) = subscriptionRef w /\
  (forall j, subscriptionRef (opened (cleaned (set_pending None w))) = Some j ->
             j <> length (subs w)).
Proof.
  intros HI. set (v := cleaned (set_pending None w)).
  assert (length (subs v) = length (subs w)) as Hl
    by exact (cleaned_length (set_pending None w)).
  assert (argsRef v = argsRef w) as EA
    by (unfold v, cleaned; cbn; now destruct (eff_cleanup w)).
  assert (subscriptionRef v = subscriptionRef w) as ER
    by (unfold v, cleaned; cbn; now destruct (eff_cleanup w)).
  pose proof (opened_new v) as Hn. rewrite Hl, EA in Hn.
  split; [exact Hn|]. split; [exact EA|]. split; [reflexivity|].
  split; [exact ER|].
  intros j Hj. change (subscriptionRef v = Some j) in Hj. rewrite ER in Hj.
  pose proof (inv_ref w HI j Hj). lia.
Qed.









(** ** A manual unsubscription, outside and inside the window *)

Lemma silent_step A a w :
  all_unsubscribed w -> eff_deps w = Some A ->
  (forall d, pending w = Some d -> d = A) ->
  keeps_source A a ->
  Forall silent (events_of (step a) w) /\
  all_unsubscribed (state_of (step a) w) /\
  eff_deps (state_of (step a) w) = Some A /\
  (forall d, pending (state_of (step a) w) = Some d -> d = A) /\
  length (subs (state_of (step a) w)) = length (subs w).
Proof.
  intros Hall Hd Hp Ha.
  destruct a as [args| |k n| |].
    - cbn in Ha. rewrite step_render_state, step_render_events.
      split; [destruct (alive w && truthy (errorRef w));
              repeat constructor|].
      destruct (alive w); [|auto]. unfold rendered. cbn.
      split; [exact Hall|]. split; [exact Hd|]. split; [|reflexivity].
      intros d. destruct (truthy (errorRef w)); [discriminate|congruence].
    - rewrite step_commit_state, step_commit_events.
      destruct (pending w) as [d|] eqn:Ep.
      + rewrite (Hp d eq_refl), Hd. cbn. rewrite Nat.eqb_refl. cbn.
        rewrite andb_false_r. split; [constructor|].
        destruct (alive w);
          [|split; [exact Hall|]; split; [exact Hd|]; split; [|reflexivity];
            intros d0 H0; rewrite Ep in H0; now apply Hp].
        unfold committed. rewrite Ep.
        rewrite (Hp d eq_refl), Hd. cbn. rewrite Nat.eqb_refl. cbn.
        split; [exact Hall|]. split; [exact Hd|]. split; [discriminate|reflexivity].
      + split; [constructor|].
        assert ((if alive w then committed w else w) = w) as ->
          by (unfold committed; rewrite Ep; now destruct (alive w)).
        split; [exact Hall|]. split; [exact Hd|]. split; [|reflexivity].
        intros d0 H0. rewrite Ep in H0. discriminate.
    - unfold events_of, state_of. rewrite (step_emit_closed k n w Hall). cbn.
      split; [constructor|]. auto.
    - rewrite step_manual_state. unfold events_of, step, bind, get. cbn.
      destruct (subscriptionRef w) as [k|]; cbn.
      + split; [repeat constructor|].
        split; [intros j sb; now apply alter_unsubscribed_all|].
        split; [exact Hd|]. split; [exact Hp|now rewrite length_alter].
      + split; [constructor|]. auto.
    - rewrite step_unmount_state. unfold events_of, step, unmount, run_cleanup,
        unsubscribe, set_status, bind, get, modify, log, ret. cbn.
      destruct (alive w); cbn; [|split; [constructor|auto]].
      pose proof (cleaned_unsubscribed_all w Hall) as Hc.
      unfold cleaned in *. destruct (eff_cleanup w) as [k|]; cbn in *.
      + split; [repeat constructor|]. split; [exact Hc|].
        split; [exact Hd|]. split; [discriminate|now rewrite length_alter].
      + split; [constructor|]. split; [exact Hc|].
        split; [exact Hd|]. split; [discriminate|reflexivity].
Qed.

Lemma silent_step_s A a w :
  all_unsubscribed w -> eff_deps w = Some A ->
  (forall d, pending w = Some d -> d = A) ->
  keeps_source_s A a ->
  Forall silent (events_of (step_s a) w) /\
  all_unsubscribed (state_of (step_s a) w) /\
  eff_deps (state_of (step_s a) w) = Some A /\
  (forall d, pending (state_of (step_s a) w) = Some d -> d = A) /\
  length (subs (state_of (step_s a) w)) = length (subs w).
Proof.
  intros Hall Hd Hp Ha. destruct a as [a|window].
  - rewrite step_s_state, step_s_events. now apply silent_step.
  - destruct (commit_sync_nil w) as [Es Ee].
    assert (state_of (step_s (CommitSync window)) w
            = state_of (step_s (CommitSync [])) w /\
            events_of (step_s (CommitSync window)) w
            = events_of (step_s (CommitSync [])) w) as [-> ->].
    { rewrite !step_s_state, !step_s_events, !commit_sync_events.
      unfold committed_sync.
      destruct (pending w) as [d|] eqn:Ep; [|now split].
      rewrite (Hp d eq_refl), Hd. cbn. now rewrite Nat.eqb_refl. }
    rewrite Es, Ee. now apply silent_step.
Qed.

Lemma silent_run_s A tr : forall w,
  all_unsubscribed w -> eff_deps w = Some A ->
  (forall d, pending w = Some d -> d = A) ->
  Forall (keeps_source_s A) tr ->
  Forall silent (events_of (run_s tr) w) /\
  length (subs (state_of (run_s tr) w)) = length (subs w).
Proof.
  induction tr as [|a tr IH]; intros w Hall Hd Hp Hk;
    [split; [constructor|reflexivity]|].
  apply Forall_cons_1 in Hk as [Ha Hk].
  rewrite events_of_run_s_cons, state_of_run_s_cons.
  destruct (silent_step_s A a w Hall Hd Hp Ha) as (H1 & H2 & H3 & H4 & H5).
  destruct (IH _ H2 H3 H4 Hk) as (I1 & I2).
  split; [now apply Forall_app|congruence].
Qed.

(** X9 (a manual unsubscription, outside and inside [subscribe]).  Made
    in a reachable world -- no effect in the middle of its [subscribe] --
    whose bound source is the one of the latest render, an unsubscription
    through the returned ref leaves no subscription open, and as long as
    renders keep passing that source nothing brings the binding back:
    commits do not resubscribe, no callback is called, no re-render is
    forced.  Made by a callback while the observable is still pushing
    inside [subscribe], it reads the previous subscription: if the
    observable does not terminate there, the new subscription is active
    and alone open when the commit is over. *)
Theorem manual_unsubscribe_is_lasting :
  (forall w tr,
     reachable_s w -> eff_deps w = Some (a_input (argsRef w)) ->
     Forall (keeps_source_s (a_input (argsRef w))) tr ->
     open_count (state_of (step ManualUnsubscribe) w) = 0 /\
     Forall silent (events_of (run_s tr) (state_of (step ManualUnsubscribe) w)) /\
     length (subs (state_of (run_s tr) (state_of (step ManualUnsubscribe) w)))
     = length (subs w)) /\
  (forall w B window,
     reachable_s w -> alive w = true ->
     pending w = Some B -> eff_deps w <> Some B ->
     Forall non_terminal window ->
     subs (state_of (step_s (CommitSync window)) w) !! length (subs w)
     = Some (mkSub B SubActive) /\
     subscriptionRef (state_of (step_s (CommitSync window)) w)
     = Some (length (subs w)) /\
     open_count (state_of (step_s (CommitSync window)) w) = 1).
Proof.
  split.
  - intros w tr Hr Hd Hk. pose proof (reachable_s_inv w Hr) as HI.
    assert (all_unsubscribed (state_of (step ManualUnsubscribe) w)) as Hall.
    { rewrite step_manual_state. intros j sb' Hj.
      destruct (status_eq_dec (sub_status sb') SubUnsubscribed) as [E|N]; [exact E|].
      exfalso. destruct (subscriptionRef w) as [k|] eqn:Er.
      - cbn in Hj. destruct (decide (k = j)) as [->|Hne].
        + rewrite list_lookup_alter_eq in Hj.
          destruct (subs w !! j); cbn in Hj; [|discriminate].
          injection Hj as <-. now apply N.
        + rewrite list_lookup_alter_ne in Hj by assumption.
          pose proof (inv_open w HI j sb' Hj N) as Ec.
          destruct (inv_cleanup w HI j Ec) as (Hr' & _). congruence.
      - pose proof (inv_open w HI j sb' Hj N) as Ec.
        destruct (inv_cleanup w HI j Ec) as (Hr' & _). congruence. }
    assert (length (subs (state_of (step ManualUnsubscribe) w)) = length (subs w))
      as Hl.
    { rewrite step_manual_state. destruct (subscriptionRef w); cbn;
        [now rewrite length_alter|reflexivity]. }
    assert (eff_deps (state_of (step ManualUnsubscribe) w)
            = Some (a_input (argsRef w)))
      as Hd' by (rewrite step_manual_state; now destruct (subscriptionRef w)).
    assert (forall d, pending (state_of (step ManualUnsubscribe) w) = Some d ->
                      d = a_input (argsRef w)) as Hp.
    { rewrite step_manual_state. intros d.
      destruct (subscriptionRef w); cbn; apply (inv_pending w HI). }
    destruct (silent_run_s _ tr _ Hall Hd' Hp Hk) as (H1 & H3).
    split; [now apply all_unsubscribed_count|]. split; [exact H1|congruence].
  - intros w B window Hr Ha Hp Hne Hnt. pose proof (reachable_s_inv w Hr) as HI.
    destruct (rebind_window w HI) as (Hn & EA & EE & ER & Href).
    destruct (nonterminal_run _ window _ Hnt Href) as [_ Ek].
    assert (subs (state_of (step_s (CommitSync window)) w) !! length (subs w)
            = Some (mkSub B SubActive)) as Hnew.
    { rewrite step_s_state, Ha, (committed_sync_rebind _ w B Hp Hne).
      cbn [finished subs set_eff_deps set_eff_cleanup set_subscriptionRef].
      unfold in_window. rewrite Ek, Hn. now rewrite (inv_pending w HI B Hp). }
    split; [exact Hnew|]. split.
    { rewrite step_s_state, Ha, (committed_sync_rebind _ w B Hp Hne). reflexivity. }
    pose proof (step_s_inv (CommitSync window) w HI) as HI'.
    pose proof (inv_open_count _ HI') as Hle.
    assert (0 < open_count (state_of (step_s (CommitSync window)) w)); [|lia].
    unfold open_count.
    destruct (List.filter is_open (subs (state_of (step_s (CommitSync window)) w)))
      as [|x l] eqn:Ef; [|cbn; lia].
    exfalso.
    assert (In (mkSub B SubActive)
               (List.filter is_open (subs (state_of (step_s (CommitSync window)) w))))
      as Hin.
    { apply List.filter_In. split; [|reflexivity].
      apply list_elem_of_In. eapply list_elem_of_lookup_2. exact Hnew. }
    rewrite Ef in Hin. destruct Hin.
Qed.

Lemma manual_unsubscribe_is_lasting_witness :
  Forall silent
    (events_of (run_s [Act (Emit 0 (NNext (VNum 1)));
                       Act (Render (mkArgs 1 (Some 8) None None));
                       CommitSync [SyncPush (NNext (VNum 5))];
                       Act (Emit 0 (NError (VObj 1))); Act (Emit 1 NComplete)])
               (state_of (step ManualUnsubscribe) world_A)) /\
  subs (state_of (step_s (CommitSync [SyncPush (NNext (VNum 1)); SyncUnsubscribe]))
                 world_A_then_B) !! 1
  = Some (mkSub 2 SubActive).
Proof.
  split.
  - refine (proj1 (proj2 (proj1 manual_unsubscribe_is_lasting world_A
              [Act (Emit 0 (NNext (VNum 1)));
               Act (Render (mkArgs 1 (Some 8) None None));
               CommitSync [SyncPush (NNext (VNum 5))];
               Act (Emit 0 (NError (VObj 1))); Act (Emit 1 NComplete)] _ _ _))).
    + exists args_A, [Act (Render args_A); Act Commit]. reflexivity.
    + reflexivity.
    + repeat constructor.
  - refine (proj1 (proj2 manual_unsubscribe_is_lasting world_A_then_B 2
              [SyncPush (NNext (VNum 1)); SyncUnsubscribe] _ _ _ _ _)).
    + exists args_A, [Act (Render args_A); Act Commit; Act (Render args_B)].
      reflexivity.
    + reflexivity.
    + reflexivity.
    + cbn. congruence.
    + repeat constructor.
Defined.

(** * The service worker: one skipWaiting per message *)

(** X10 (one message, one skipWaiting at most).  Both listeners see
    every message, yet whatever the message and however the promise
    settles, [skipWaiting] is called at most once, because the two
    listeners answer to different type strings.  A message with falsy
    data does nothing.  When a reply is posted, the message has type
    ['skip-waiting'], the reply goes to the first port of the event and
    carries [null] when the promise resolved and the rejection
    otherwise, and the whole log is, in this order: [skipWaiting] called,
    its promise handed to [waitUntil], the reply posted. *)
Theorem skip_waiting_at_most_once
    (rejection : option val) (ev : ServiceWorker.MessageEvent) :
  length (List.filter ServiceWorker.is_skip (ServiceWorker.on_message rejection ev))
  <= 1 /\
  length (List.filter ServiceWorker.is_post (ServiceWorker.on_message rejection ev))
  <= 1 /\
  (ServiceWorker.data_truthy (ServiceWorker.ev_data ev) = false ->
   ServiceWorker.on_message rejection ev = []) /\
  (forall port error,
     In (ServiceWorker.PostMessage port error)
        (ServiceWorker.on_message rejection ev) ->
     (exists rest, ServiceWorker.ev_ports ev = port :: rest) /\
     error = match rejection with None => VNull | Some err => err end /\
     ServiceWorker.data_type (ServiceWorker.ev_data ev) = VStr "skip-waiting" /\
     ServiceWorker.on_message rejection ev
     = [ServiceWorker.SkipWaiting; ServiceWorker.WaitUntil;
        ServiceWorker.PostMessage port error]).
Proof.
  unfold ServiceWorker.on_message, ServiceWorker.on_skip_waiting,
    ServiceWorker.on_skip_waiting_reply.
  destruct ev as [d ports]. cbn [ServiceWorker.ev_data ServiceWorker.ev_ports].
  destruct (ServiceWorker.data_truthy d) eqn:Ht; cbn [andb].
  - destruct (ServiceWorker.is_string (ServiceWorker.data_type d) "SKIP_WAITING") eqn:H1.
    + rewrite (distinct_message_types _ H1). destruct ports; sw_trivial.
    + destruct ports as [|p rest]; [sw_trivial|].
      destruct (ServiceWorker.is_string (ServiceWorker.data_type d) "skip-waiting") eqn:H2;
        [|sw_trivial].
      cbn. split; [lia|]. split; [lia|]. split; [discriminate|].
      intros q err [H|[H|[H|[]]]]; try discriminate.
      injection H as <- <-. split; [eauto|]. split; [reflexivity|].
      split; [|reflexivity].
      destruct (ServiceWorker.data_type d); cbn in H2; try discriminate.
      apply String.eqb_eq in H2. now subst s.
  - destruct ports; sw_trivial.
Qed.

Lemma skip_waiting_at_most_once_witness :
  ServiceWorker.on_message (Some (VObj 4))
    (ServiceWorker.mkEvent (ServiceWorker.Typed (VStr "skip-waiting")) [5; 6])
  = [ServiceWorker.SkipWaiting; ServiceWorker.WaitUntil;
     ServiceWorker.PostMessage 5 (VObj 4)].
Proof.
  refine (proj2 (proj2 (proj2
           (proj2 (proj2 (proj2
              (skip_waiting_at_most_once (Some (VObj 4))
                 (ServiceWorker.mkEvent (ServiceWorker.Typed (VStr "skip-waiting"))
                                        [5; 6]))))
              5 (VObj 4) _)))).
  vm_compute. auto.
Defined.
